(** * Grae-X Sentinel: risk classification and password-strength display

    A shallow embedding of the classification and scoring code found in
    [sentinel_cli.py], [sentinel_gui_fixed.py] and [sentinel_gui_backup.py],
    with the properties the specification states about it.

    Modelling conventions
    - A Python [str] is a [string]: the descriptors and passwords treated
      here are ASCII text, one [ascii] per character.  [str.upper] and
      [str.lower] act on the letters a-z / A-Z and leave every other
      character alone, which is what Python does on ASCII input.
    - A scanned network is the [dict] the scanner returns, here a
      [gmap string string]; [net.get(k, d)] is [default d (net !! k)].
    - Integers are [Z]; [score * 2.5] is kept as an exact rational, which
      is also its exact floating-point value for every integer score the
      program can produce (a multiple of one half).
    - [random] is modelled by an explicit generator state that is threaded
      through every draw. *)

From Stdlib Require Import ZArith QArith Lia Ascii String.
From stdpp Require Import gmap strings pretty.

Local Open Scope string_scope.

(** ** Python string operations used by the program *)

Module PyStr.

(** [sub in s]: does [sub] occur in [s] as a contiguous run? *)
Fixpoint str_in (sub s : string) : bool :=
  if String.prefix sub s then true
  else match s with
       | EmptyString => false
       | String _ rest => str_in sub rest
       end.

(** [s[:n]] *)
Fixpoint slice_to (n : nat) (s : string) : string :=
  match n, s with
  | O, _ => EmptyString
  | S _, EmptyString => EmptyString
  | S k, String c rest => String c (slice_to k rest)
  end.

Definition upper_char (c : ascii) : ascii :=
  let n := nat_of_ascii c in
  if (97 <=? n)%nat && (n <=? 122)%nat then ascii_of_nat (n - 32) else c.

Definition lower_char (c : ascii) : ascii :=
  let n := nat_of_ascii c in
  if (65 <=? n)%nat && (n <=? 90)%nat then ascii_of_nat (n + 32) else c.

(** [s.upper()] and [s.lower()] *)
Fixpoint upper (s : string) : string :=
  match s with
  | EmptyString => EmptyString
  | String c rest => String (upper_char c) (upper rest)
  end.

Fixpoint lower (s : string) : string :=
  match s with
  | EmptyString => EmptyString
  | String c rest => String (lower_char c) (lower rest)
  end.

(** [len(s)] *)
Definition len (s : string) : Z := Z.of_nat (String.length s).






(** [s * n], [sep.join(parts)] and the line feed. *)
Fixpoint str_times (s : string) (n : nat) : string :=
  match n with
  | O => EmptyString
  | S k => s +:+ str_times s k
  end.

Fixpoint join (sep : string) (parts : list string) : string :=
  match parts with
  | [] => EmptyString
  | [part] => part
  | part :: rest => part +:+ sep +:+ join sep rest
  end.

Definition newline : string := String (ascii_of_nat 10) EmptyString.

(** [s.find(sub)], with [None] for -1, and [s[n:]]. *)
Fixpoint find (sub s : string) : option nat :=
  if String.prefix sub s then Some O
  else match s with
       | EmptyString => None
       | String _ rest => S <$> find sub rest
       end.

Fixpoint slice_from (n : nat) (s : string) : string :=
  match n, s with
  | O, _ => s
  | S _, EmptyString => EmptyString
  | S k, String _ rest => slice_from k rest
  end.





End PyStr.

Import PyStr.

(** ** Risk tiers

    Both front ends name their tiers with the strings CRITICAL, HIGH,
    MEDIUM, LOW and UNKNOWN (the fixed GUI appends a warning or check glyph
    to the text it shows; the glyph carries no information of its own). *)

Inductive Risk : Set := CRITICAL | HIGH | MEDIUM | LOW | UNKNOWN.

(** A scanned network, as returned by [WiFiScanner.scan]. *)
Abbreviation Network := (gmap string string).

(** ** The command-line front end ([sentinel_cli.py]) *)

Module Cli.

(** The if-chain of [SentinelCLI.wifi_scan] (the same chain is used by
    [batch_wifi_audit]): tier and the colour it is printed in. *)
Definition risk_of (security : string) : Risk * string :=
  if str_in "WEP" security then (CRITICAL, "red")
  else if str_in "OPEN" security then (HIGH, "red")
  else if str_in "WPA" security && negb (str_in "WPA2" security)
       then (MEDIUM, "yellow")
  else (LOW, "green").

(** [net.get('security', 'Unknown')] *)
Definition security_field (net : Network) : string :=
  default "Unknown" (net !! "security").

Record Row : Set := {
  row_number : Z;
  row_ssid : string;
  row_security : string;
  row_signal : string;
  row_risk : Risk;
  row_color : string }.

(** One iteration of the listing loop of [wifi_scan]: the three fields
    are cut to their column width first, and the risk is computed from
    the cut security field. *)
Definition wifi_scan_row (i : Z) (net : Network) : Row :=
  let ssid := slice_to 24 (default "Hidden" (net !! "ssid")) in
  let security := slice_to 14 (security_field net) in
  let signal := slice_to 9 (default "N/A" (net !! "signal")) in
  let '(risk, risk_color) := risk_of security in
  {| row_number := i; row_ssid := ssid; row_security := security;
     row_signal := signal; row_risk := risk; row_color := risk_color |}.

(** [for i, net in enumerate(networks, 1)] *)
Fixpoint wifi_scan_rows (i : Z) (networks : list Network) : list Row :=
  match networks with
  | [] => []
  | net :: rest => wifi_scan_row i net :: wifi_scan_rows (i + 1) rest
  end.

Inductive ScanOutput : Set :=
| NoNetworks                      (* "No networks found or insufficient permissions" *)
| Listing (rows : list Row).

Definition wifi_scan (networks : list Network) : ScanOutput :=
  match networks with
  | [] => NoNetworks
  | _ => Listing (wifi_scan_rows 1 networks)
  end.

(** The risk shown for one network in the listing. *)
Definition listed_risk (net : Network) : Risk := row_risk (wifi_scan_row 1 net).

(** The tier written by [batch_wifi_audit], which does not cut the field. *)
Definition audit_risk (net : Network) : Risk :=
  fst (risk_of (security_field net)).

(** [analyze_network]: which of the four assessments is printed, if any. *)
Inductive Assessment : Set :=
| WepCrackable        (* "WEP ENCRYPTION - EASILY CRACKABLE" *)
| OpenNoEncryption    (* "OPEN NETWORK - NO ENCRYPTION" *)
| OriginalWpa         (* "Original WPA - Vulnerable to attacks" *)
| GoodEncryption      (* "Good encryption (WPA2/WPA3)" *)
| NoAssessment.

Definition analyze_network (network : Network) : Assessment :=
  let security := security_field network in
  if str_in "WEP" security then WepCrackable
  else if str_in "OPEN" security || str_in "NONE" security then OpenNoEncryption
  else if str_in "WPA" security && negb (str_in "WPA2" security) then OriginalWpa
  else if str_in "WPA2" security || str_in "WPA3" security then GoodEncryption
  else NoAssessment.

(** The colour band of the strength line printed by [password_analysis]. *)
Definition strength_color (score : Z) : string :=
  if (80 <=? score)%Z then "green"
  else if (60 <=? score)%Z then "yellow"
  else if (40 <=? score)%Z then "yellow"
  else "red".

(** One turn of the prompt loop of [password_analysis].  The analyzer
    itself lives in [modules/password_analyzer.py] and is a parameter. *)
Section PasswordAnalysis.
Context {Result : Type}.
Variable analyze : string -> Result.

Inductive Turn : Type :=
| Leave                         (* "back": break *)
| Warned (message : string)     (* print_warning, continue *)
| Analysed (result : Result).

Definition password_analysis_turn (password : string) : Turn :=
  if String.eqb (lower password) "back" then Leave
  else if String.eqb password "" then Warned "Password cannot be empty"
  else Analysed (analyze password).
End PasswordAnalysis.

Arguments Leave {Result}.
Arguments Warned {Result} message.
Arguments Analysed {Result} result.


(** The loop of [batch_wifi_audit] that collects the insecure networks. *)
Definition insecure (net : Network) : bool :=
  str_in "WEP" (default "" (net !! "security"))
  || str_in "OPEN" (default "" (net !! "security")).

Definition insecure_networks (networks : list Network) : list Network :=
  fold_left (fun acc net => if insecure net then (acc ++ [net])%list else acc)
            networks [].

(** The length asked for in [password_generation] and [batch_password_generate],
    and the count asked for in the latter, from the stripped reply.  [None]
    stands for the ValueError of [int]: [password_generation] lets it
    escape, [batch_password_generate] catches it, prints the error and
    generates nothing. *)
Section ReplyNumbers.
Variable max_str_digits : option nat.




End ReplyNumbers.

(** [batch_password_check]: the analysis loop over the passwords read from
    the file, and the lines written for the weak ones (without their line
    terminator).  The analyzer and the score field of its result are
    parameters. *)
Section BatchCheck.
Context {Result : Type}.
Variable analyze : string -> Result.
Variable score : Result -> Z.

Definition check_password (acc : list (string * Result) * list (string * Z))
  (password : string) : list (string * Result) * list (string * Z) :=
  let result := analyze password in
  ((acc.1 ++ [(password, result)])%list,
   if (score result <? 40)%Z then (acc.2 ++ [(password, score result)])%list
   else acc.2).

Definition batch_check (passwords : list string)
  : list (string * Result) * list (string * Z) :=
  fold_left check_password (take 1000 passwords) ([], []).

Definition weak_line (entry : string * Z) : string :=
  slice_to 10 entry.1 +:+ "... - Score: " +:+ pretty entry.2 +:+ "/100".

Definition weak_lines (weak_passwords : list (string * Z)) : list string :=
  map weak_line (take 50 weak_passwords).
End BatchCheck.

End Cli.

(** ** The random source

    The fallback analyzer draws from Python's [random] module.  A generator
    is the sequence of raw words it is going to emit together with the
    number of words already consumed; every draw consumes one word. *)

Module Rand.

Record Random : Type := { source : nat -> N; consumed : nat }.

Definition next_word (g : Random) : N * Random :=
  (source g (consumed g), {| source := source g; consumed := S (consumed g) |}).

(** [_randbelow(n)]: a value in [0, n) *)
Definition randbelow (n : N) (g : Random) : N * Random :=
  let '(w, g') := next_word g in ((w mod n)%N, g').

(** [random.randint(a, b)] is [a + _randbelow(b - a + 1)] *)
Definition randint (a b : Z) (g : Random) : Z * Random :=
  let '(k, g') := randbelow (Z.to_N (b - a + 1)) g in ((a + Z.of_N k)%Z, g').

(** [random.uniform(a, b)] is [a + (b - a) * random()], where [random()] is
    a 53-bit fraction; the value is kept exact. *)
Definition uniform (a b : Z) (g : Random) : Q * Random :=
  let '(w, g') := next_word g in
  ((inject_Z a + inject_Z (b - a) * (Z.of_N (w mod 2 ^ 53) # 2 ^ 53))%Q, g').

(** Two generators to run the code on: the n-th word of the first is n,
    the n-th word of the second is 100 - n. *)
Definition counting : Random := {| source := N.of_nat; consumed := 0 |}.

Definition descending : Random :=
  {| source := fun n => N.of_nat (100 - n); consumed := 0 |}.

(** [random.random()]: a 53-bit fraction in [0, 1). *)
Definition random (g : Random) : Q * Random :=
  let '(w, g') := next_word g in ((Z.of_N (w mod 2 ^ 53) # 2 ^ 53)%Q, g').

(** [random.choice(seq)] is [seq[_randbelow(len(seq))]]; [None] stands for
    the error raised when the sequence is empty. *)
Definition choice (seq : string) (g : Random) : option ascii * Random :=
  let '(k, g') := randbelow (N.of_nat (String.length seq)) g in
  (String.get (N.to_nat k) seq, g').

End Rand.

(** ** The graphical front end ([sentinel_gui_fixed.py]) *)

Module Gui.

Import Rand.

(** The result dictionary of the fallback [PasswordAnalyzer.analyze]. *)
Record Analysis : Type := {
  score : Z;
  crack_time : string;
  entropy : Q;
  feedback : list string }.

(** [PasswordAnalyzer.analyze] as defined when the real modules cannot be
    imported.  The dictionary literal evaluates its values in order, so the
    three draws happen in this order. *)
Definition analyze (password : string) (g : Random) : Analysis * Random :=
  let '(s, g1) := randint 20 95 g in
  let '(years, g2) := randint 1 1000 g1 in
  let '(e, g3) := uniform 20 80 g2 in
  ({| score := s;
      crack_time := pretty years +:+ " years";
      entropy := e;
      feedback := ["Sample analysis - install real modules"] |}, g3).

(** The band chosen by [update_strength_display]: colour and strength word. *)
Definition strength_band (score : Z) : string * string :=
  if (80 <=? score)%Z then ("matrix_green", "IMPENETRABLE")
  else if (60 <=? score)%Z then ("cyber_blue", "STRONG")
  else if (40 <=? score)%Z then ("warning_orange", "MODERATE")
  else if (20 <=? score)%Z then ("#FF6600", "WEAK")
  else ("alert_red", "CRITICAL").

Definition strength_word (score : Z) : string := snd (strength_band score).

(** The password tab: what its widgets currently show, and the counter the
    tab updates.  The widgets are the ones [create_password_tab] builds, so
    the [hasattr] and [key in self.metric_labels] guards always succeed. *)
Record PasswordTab : Type := {
  current_password : string;
  strength_bar_color : string;
  strength_label : string;
  metric_entropy : Q;             (* shown with one decimal, followed by " bits" *)
  metric_crack : string;
  metric_pattern : string;
  metric_breach : string;
  passwords_analyzed : Z }.

(** The tab as built, before any event. *)
Definition fresh_tab : PasswordTab :=
  {| current_password := "";
     strength_bar_color := "text_dim";
     strength_label := "ENTER PASSWORD TO BEGIN ANALYSIS";
     metric_entropy := 0;
     metric_crack := "INSTANT";
     metric_pattern := "NONE";
     metric_breach := "UNKNOWN";
     passwords_analyzed := 0 |}.

Definition update_strength_display (score : Z) (tab : PasswordTab) : PasswordTab :=
  let '(color, strength) := strength_band score in
  {| current_password := current_password tab;
     strength_bar_color := color;
     strength_label := "[" +:+ strength +:+ "] SCORE: " +:+ pretty score +:+ "/100";
     metric_entropy := inject_Z score * (5 # 2);
     metric_crack := if (60 <? score)%Z then "YEARS"
                     else if (30 <? score)%Z then "DAYS"
                     else if (10 <? score)%Z then "HOURS" else "MINUTES";
     metric_pattern := if (70 <? score)%Z then "COMPLEX"
                       else if (40 <? score)%Z then "MODERATE" else "SIMPLE";
     metric_breach := if (80 <? score)%Z then "SAFE"
                      else if (50 <? score)%Z then "RISK" else "VULNERABLE";
     passwords_analyzed := passwords_analyzed tab |}.

(** [on_password_change]: the handler run on every edit of the entry. *)
Definition on_password_change (password : string) (tab : PasswordTab) : PasswordTab :=
  let tab' :=
    {| current_password := password;
       strength_bar_color := strength_bar_color tab;
       strength_label := strength_label tab;
       metric_entropy := metric_entropy tab;
       metric_crack := metric_crack tab;
       metric_pattern := metric_pattern tab;
       metric_breach := metric_breach tab;
       passwords_analyzed := passwords_analyzed tab |} in
  if negb (String.eqb password "") && (0 <? len password)%Z
  then update_strength_display (Z.min (len password * 6) 100) tab'
  else tab'.

(** [display_analysis_result]: new tab and the message shown. *)
Definition display_analysis_result (result : Analysis) (tab : PasswordTab)
  : PasswordTab * string :=
  let s := score result in
  let tab1 := update_strength_display s tab in
  let tab2 :=
    {| current_password := current_password tab1;
       strength_bar_color := strength_bar_color tab1;
       strength_label := strength_label tab1;
       metric_entropy := metric_entropy tab1;
       metric_crack := metric_crack tab1;
       metric_pattern := metric_pattern tab1;
       metric_breach := metric_breach tab1;
       passwords_analyzed := passwords_analyzed tab1 + 1 |} in
  (tab2,
   if (80 <=? s)%Z then "PASSWORD SECURITY: EXCELLENT"
   else if (60 <=? s)%Z then "PASSWORD SECURITY: GOOD"
   else if (40 <=? s)%Z then "PASSWORD SECURITY: FAIR"
   else "PASSWORD SECURITY: POOR").

(** [analyze_password]: the Analyze button. *)
Inductive Pressed : Type :=
| Alert (message : string)
| Shown (tab : PasswordTab) (message : string) (g : Random).

Definition analyze_password (password : string) (tab : PasswordTab) (g : Random) : Pressed :=
  if String.eqb password "" || String.eqb password "Enter password here..."
  then Alert "NO PASSWORD INPUT DETECTED"
  else let '(result, g') := analyze password g in
       let '(tab', message) := display_analysis_result result tab in
       Shown tab' message g'.

(** The if-chain of [display_scan_results]. *)
Definition threat_level (security : string) : Risk :=
  if str_in "WEP" (upper security) || str_in "OPEN" (upper security) then CRITICAL
  else if str_in "WPA" (upper security) && negb (str_in "WPA2" (upper security)) then HIGH
  else if str_in "WPA2" (upper security) then MEDIUM
  else if str_in "WPA3" (upper security) then LOW
  else UNKNOWN.

(** [net.get('security', net.get('Security', 'UNKNOWN'))] *)
Definition security_field (net : Network) : string :=
  default (default "UNKNOWN" (net !! "Security")) (net !! "security").

Record TreeRow : Set := {
  tree_ssid : string;
  tree_security : string;
  tree_signal : string;
  tree_channel : string;
  tree_threat : Risk }.

(** One iteration of the loop of [display_scan_results]. *)
Definition scan_row (net : Network) : TreeRow :=
  let ssid := default (default "HIDDEN NETWORK" (net !! "SSID")) (net !! "ssid") in
  let security := security_field net in
  let signal := default (default "N/A" (net !! "Signal")) (net !! "signal") in
  let channel := default (default "N/A" (net !! "Channel")) (net !! "channel") in
  {| tree_ssid := ssid; tree_security := security; tree_signal := signal;
     tree_channel := channel; tree_threat := threat_level security |}.

Record ScanTab : Type := {
  scanning : bool;
  current_networks : list Network;
  network_tree : list TreeRow;
  networks_scanned : Z }.

Definition display_scan_results (networks : list Network) (tab : ScanTab) : ScanTab :=
  {| scanning := false;
     current_networks := networks;
     network_tree := map scan_row networks;
     networks_scanned := networks_scanned tab + 1 |}.

(** The threat shown for one network. *)
Definition shown_threat (net : Network) : Risk := tree_threat (scan_row net).

(** The fallback [PasswordGenerator.generate].  The keyword arguments are a
    dictionary from names to integers (a Python [bool] is the integer 0 or
    1); only [length] is read.  [None] stands for a raised error. *)
Definition chars : string :=
  "abcdefghijklmnopqrstuvwxyzABCDEFGHIJKLMNOPQRSTUVWXYZ0123456789!@#$%&*".

Fixpoint join_choices (n : nat) (g : Random) : option string * Random :=
  match n with
  | O => (Some EmptyString, g)
  | S k =>
      let '(c, g1) := choice chars g in
      match c with
      | None => (None, g1)
      | Some c => let '(rest, g2) := join_choices k g1 in (String c <$> rest, g2)
      end
  end.

Definition generate (kwargs : gmap string Z) (g : Random) : option string * Random :=
  let length := default 16%Z (kwargs !! "length") in
  join_choices (Z.to_nat length) g.

(** [typewriter_effect]: [type_char i] appends [text[i]] to the variable
    shown and schedules [type_char (i + 1)]; it does nothing once [i]
    reaches the end.  [typewriter_effect text ticks] is the variable after
    that many calls of [type_char]. *)
Definition type_char (text : string) (i : nat) (shown : string)
  : option (string * nat) :=
  match String.get i text with
  | Some c => Some (shown +:+ String c EmptyString, S i)
  | None => None
  end.

Fixpoint type_chars (text : string) (ticks i : nat) (shown : string) : string :=
  match ticks with
  | O => shown
  | S t =>
      match type_char text i shown with
      | Some (shown', i') => type_chars text t i' shown'
      | None => shown
      end
  end.

Definition typewriter_effect (text : string) (ticks : nat) : string :=
  type_chars text ticks 0 EmptyString.

(** The fallback [ReportGenerator.generate_wifi_report].  A Python [dict]
    lists its keys in insertion order, so [security_counts] is kept as an
    association list.  [now] is the formatted scan time. *)
Fixpoint bump (security : string) (counts : list (string * Z)) : list (string * Z) :=
  match counts with
  | [] => [(security, (0 + 1)%Z)]
  | (key, count) :: rest =>
      if String.eqb key security then (key, (count + 1)%Z) :: rest
      else (key, count) :: bump security rest
  end.

Definition security_counts (networks : list Network) : list (string * Z) :=
  fold_left (fun counts net => bump (default "Unknown" (net !! "security")) counts)
            networks [].

Definition is_vulnerable (net : Network) : bool :=
  existsb (String.eqb (default "" (net !! "security"))) ["WEP"; "OPEN"; "WPA"; "WPA2"].

Definition vulnerable (networks : list Network) : list Network :=
  List.filter is_vulnerable networks.

(** [security_counts.get(key, 0)] on the association list. *)
Fixpoint get_count (key : string) (counts : list (string * Z)) : Z :=
  match counts with
  | [] => 0%Z
  | (k, count) :: rest => if String.eqb k key then count else get_count key rest
  end.

Definition vulnerable_lines (net : Network) : list string :=
  [ "  SSID: " +:+ default "Unknown" (net !! "ssid");
    "    Security: " +:+ default "Unknown" (net !! "security");
    "    Signal: " +:+ default "N/A" (net !! "signal") ].

Definition wifi_report_lines (now : string) (networks : list Network) : list string :=
  ([ str_times "=" 70; "WiFi NETWORK SECURITY REPORT"; str_times "=" 70;
     "Scan Time: " +:+ now;
     "Total Networks Found: " +:+ pretty (length networks);
     str_times "-" 70;
     "Security Type Breakdown:" ]
   ++ map (fun entry : string * Z =>
             "  " +:+ entry.1 +:+ ": " +:+ pretty entry.2 +:+ " networks")
          (security_counts networks)
   ++ match vulnerable networks with
      | [] => []
      | found =>
          [ newline +:+ "Vulnerable Networks Found: " +:+ pretty (length found);
            str_times "-" 40 ]
          ++ concat (map vulnerable_lines found)
      end
   ++ [ newline +:+ str_times "=" 70; "RECOMMENDATIONS:"; str_times "-" 70;
        "1. Use WPA3 encryption whenever possible";
        "2. Avoid using WEP or OPEN networks";
        "3. Change default router passwords";
        "4. Disable WPS if not needed";
        "5. Regularly update router firmware";
        str_times "=" 70 ])%list.

Definition generate_wifi_report (now : string) (networks : list Network) : string :=
  match networks with
  | [] => "No WiFi networks scanned."
  | _ => join newline (wifi_report_lines now networks)
  end.

(** [on_network_select]: the threat text stored in the selected row decides
    the assessment appended to the report and its colour. *)
Definition threat_text (threat : Risk) : string :=
  match threat with
  | CRITICAL => "CRITICAL ⚠️"
  | HIGH => "HIGH ⚠️"
  | MEDIUM => "MEDIUM ⚠️"
  | LOW => "LOW ✅"
  | UNKNOWN => "UNKNOWN ❓"
  end.

Inductive Advice : Set :=
| AvoidConnection       (* "CRITICAL RISK - AVOID CONNECTION" *)
| ExtremeCaution        (* "HIGH RISK - USE WITH EXTREME CAUTION" *)
| StrongEncryption      (* "MEDIUM RISK - USE STRONG ENCRYPTION" *)
| SecureForUse.         (* "LOW RISK - SECURE FOR USE" *)

Definition assess (threat : string) : Advice * string :=
  if str_in "CRITICAL" threat then (AvoidConnection, "alert_red")
  else if str_in "HIGH" threat then (ExtremeCaution, "warning_orange")
  else if str_in "MEDIUM" threat then (StrongEncryption, "cyber_blue")
  else (SecureForUse, "matrix_green").

Definition on_network_select (selection : option TreeRow) : option (Advice * string) :=
  match selection with
  | None => None
  | Some row => Some (assess (threat_text (tree_threat row)))
  end.

(** [DigitalRainWidget.animate]: one frame.  Each column holds a counter;
    the frame draws up to ten characters above the counter's position and
    advances the counter.  An item is the text drawn: its place, the
    character and the colour. *)
Record RainItem : Type := {
  item_x : Z;
  item_y : Z;
  item_char : ascii;
  item_color : string }.

Definition font_size : Z := 10.

Definition rain_colors : list string := ["#00FF00"; "#00CC00"; "#009900"; "#006600"].

Definition rain_chars : string :=
  "0101010101101001011101000111001100100000011000010110111001100100".

(** The inner loop [for j in range(min(10, len(self.chars)))], from [j]. *)
Fixpoint draw_drop (count : nat) (j i y : Z) (g : Random) : list RainItem * Random :=
  match count with
  | O => ([], g)
  | S k =>
      let '(c, g1) := choice "01" g in
      let char_y := (y - j * font_size)%Z in
      let '(items, g2) := draw_drop k (j + 1)%Z i y g1 in
      (match c with
       | Some char =>
           if (0 <=? char_y)%Z
           then {| item_x := (i * font_size)%Z; item_y := char_y; item_char := char;
                   item_color :=
                     default EmptyString
                       (rain_colors !! Z.to_nat (Z.min j (Z.of_nat (length rain_colors) - 1))) |}
                :: items
           else items
       | None => items
       end, g2)
  end.

(** The body of the loop over the columns, for column [i] holding [drop]. *)
Definition animate_column (i drop : Z) (g : Random) : Z * list RainItem * Random :=
  let '(drop1, g1) :=
    if (100 <? drop)%Z then (0%Z, g)
    else let '(r, g') := Rand.random g in
         if negb (Qle_bool r (975 # 1000)) then (0%Z, g') else (drop, g') in
  let y := (drop1 * font_size)%Z in
  let '(items, g2) :=
    draw_drop (Z.to_nat (Z.min 10 (Z.of_nat (String.length rain_chars)))) 0 i y g1 in
  ((drop1 + 1)%Z, items, g2).

Fixpoint animate_columns (i : Z) (drops : list Z) (g : Random)
  : list Z * list RainItem * Random :=
  match drops with
  | [] => ([], [], g)
  | drop :: rest =>
      let '(drop', items, g1) := animate_column i drop g in
      let '(rest', items', g2) := animate_columns (i + 1)%Z rest g1 in
      (drop' :: rest', (items ++ items')%list, g2)
  end.

Definition animate (running : bool) (drops : list Z) (g : Random)
  : list Z * list RainItem * Random :=
  if running then animate_columns 0 drops g else (drops, [], g).

(** [update_clock]: the footer text after a tick of the clock;
    [time_str] is the formatted time of day.  [rsplit_head] is
    [text.rsplit('|', 1)[0]] when the text holds a bar. *)
Definition is_bar (c : ascii) : bool := Nat.eqb (nat_of_ascii c) 124.

Fixpoint rsplit_head (text : string) : option string :=
  match text with
  | EmptyString => None
  | String c rest =>
      match rsplit_head rest with
      | Some head => Some (String c head)
      | None => if is_bar c then Some EmptyString else None
      end
  end.

Definition update_clock (time_str current_text : string) : string :=
  if str_in "READY |" current_text
  then ">_ GRAE-X SENTINEL PRO v4.2.1 | READY | " +:+ time_str
  else default current_text (rsplit_head current_text) +:+ "| " +:+ time_str.

End Gui.

(** ** The earlier graphical front end ([sentinel_gui_backup.py]) *)

Module GuiBackup.

(** The if-chain of [display_scan_results]. *)
Definition threat_level (security : string) : Risk :=
  if str_in "WEP" (upper security) || str_in "OPEN" (upper security) then CRITICAL
  else if str_in "WPA" (upper security) && negb (str_in "WPA2" (upper security)) then HIGH
  else if str_in "WPA2" (upper security) then MEDIUM
  else if str_in "WPA3" (upper security) then LOW
  else UNKNOWN.

Definition shown_threat (net : Network) : Risk :=
  threat_level (default (default "UNKNOWN" (net !! "Security")) (net !! "security")).

(** [on_network_select]: here the threat text is the bare tier name and is
    compared for equality. *)
Definition threat_text (threat : Risk) : string :=
  match threat with
  | CRITICAL => "CRITICAL"
  | HIGH => "HIGH"
  | MEDIUM => "MEDIUM"
  | LOW => "LOW"
  | UNKNOWN => "UNKNOWN"
  end.

Inductive Advice : Set :=
| AvoidConnection       (* "AVOID CONNECTION" *)
| UseWithCaution        (* "USE WITH CAUTION" *)
| UseStrongPassword     (* "USE STRONG PASSWORD" *)
| SafeForUse.           (* "SAFE FOR USE" *)

Definition recommend (threat : string) : Advice :=
  if String.eqb threat "CRITICAL" then AvoidConnection
  else if String.eqb threat "HIGH" then UseWithCaution
  else if String.eqb threat "MEDIUM" then UseStrongPassword
  else SafeForUse.

Definition on_network_select (selection : option Risk) : option Advice :=
  match selection with
  | None => None
  | Some threat => Some (recommend (threat_text threat))
  end.

(** [update_system_monitor]: the three usage bars (CPU, RAM, network).  The
    label of a bar shows its value followed by a percent sign, and the
    value is read back from the label at the next update. *)
Record UsageBar : Type := {
  usage : Z;
  bar_width : Q;
  bar_color : string }.

Definition update_bar (bar : UsageBar) (g : Rand.Random) : UsageBar * Rand.Random :=
  let current := usage bar in
  let '(change, g') := Rand.randint (-10) 10 g in
  let new_value := Z.max 0 (Z.min 100 (current + change)) in
  ({| usage := new_value;
      bar_width := inject_Z new_value * (3 # 2);
      bar_color := if (80 <? new_value)%Z then "alert_red"
                   else if (60 <? new_value)%Z then "warning_yellow"
                   else "matrix_green" |}, g').

Fixpoint update_bars (bars : list UsageBar) (g : Rand.Random)
  : list UsageBar * Rand.Random :=
  match bars with
  | [] => ([], g)
  | bar :: rest =>
      let '(bar', g1) := update_bar bar g in
      let '(rest', g2) := update_bars rest g1 in
      (bar' :: rest', g2)
  end.

Definition update_system_monitor (cpu ram net : UsageBar) (g : Rand.Random)
  : list UsageBar * Rand.Random :=
  update_bars [cpu; ram; net] g.

(** The monitor after a number of updates (it reschedules itself). *)
Fixpoint monitor_after (ticks : nat) (bars : list UsageBar) (g : Rand.Random)
  : list UsageBar * Rand.Random :=
  match ticks with
  | O => (bars, g)
  | S t => let '(bars', g') := update_bars bars g in monitor_after t bars' g'
  end.

End GuiBackup.

(** ** The repair script ([fix_stats.py])

    The script looks for the constructor, checks that it does not set the
    statistics yet, and scans forward from the opening of the colour
    dictionary for the place where to insert the initialisation. *)

Module FixStats.

Record Scan : Set := {
  brace_count : Z;
  in_string : bool;
  escape_next : bool }.

Definition start : Scan :=
  {| brace_count := 0; in_string := false; escape_next := false |}.

Definition is_char (n : nat) (c : ascii) : bool := Nat.eqb (nat_of_ascii c) n.

(** The scanning loop [for i in range(colors_end, len(content))]: [rest] is
    [content[i:]]; the result is [insert_pos] when the loop breaks. *)
Fixpoint find_insert_pos (i : nat) (rest : string) (st : Scan) : option nat :=
  match rest with
  | EmptyString => None
  | String char rest' =>
      if escape_next st then
        find_insert_pos (S i) rest'
          {| brace_count := brace_count st; in_string := in_string st;
             escape_next := false |}
      else if is_char 92 char then
        find_insert_pos (S i) rest'
          {| brace_count := brace_count st; in_string := in_string st;
             escape_next := true |}
      else if is_char 34 char || is_char 39 char then
        find_insert_pos (S i) rest'
          {| brace_count := brace_count st; in_string := negb (in_string st);
             escape_next := escape_next st |}
      else if negb (in_string st) then
        if is_char 123 char then
          find_insert_pos (S i) rest'
            {| brace_count := brace_count st + 1; in_string := in_string st;
               escape_next := escape_next st |}
        else if is_char 125 char then
          if (brace_count st - 1 =? 0)%Z then Some (i + 1)%nat
          else find_insert_pos (S i) rest'
                 {| brace_count := brace_count st - 1; in_string := in_string st;
                    escape_next := escape_next st |}
        else find_insert_pos (S i) rest' st
      else find_insert_pos (S i) rest' st
  end.

(** Group 1 of the search for
    [def __init__\(self\):(.*?)self\.root = tk\.Tk\(\)] with DOTALL: the
    text between the first header and the first construction of the root
    window after it. *)
Definition init_content (content : string) : option string :=
  match find "def __init__(self):" content with
  | None => None
  | Some p =>
      let after := slice_from (p + String.length "def __init__(self):") content in
      match find "self.root = tk.Tk()" after with
      | None => None
      | Some q => Some (slice_to q after)
      end
  end.

Definition colors_section : string := "self.colors = {".

Definition stats_text : string :=
  newline +:+ newline +:+ "        # Initialize stats" +:+ newline
  +:+ "        self.stats = {" +:+ newline
  +:+ "            'passwords_analyzed': 0," +:+ newline
  +:+ "            'networks_scanned': 0," +:+ newline
  +:+ "            'breaches_found': 0," +:+ newline
  +:+ "            'reports_generated': 0" +:+ newline
  +:+ "        }" +:+ newline +:+ "        ".

(** The whole script: the new content of the file when it is rewritten. *)
Definition fix_stats (content : string) : option string :=
  match init_content content with
  | None => None
  | Some init =>
      if str_in "self.stats =" init then None
      else match find colors_section content with
           | None => None
           | Some p =>
               let colors_end := (p + String.length colors_section)%nat in
               match find_insert_pos colors_end (slice_from colors_end content) start with
               | None => None
               | Some insert_pos =>
                   Some (slice_to insert_pos content +:+ stats_text
                         +:+ slice_from insert_pos content)
               end
           end
  end.

End FixStats.

(** * Properties *)

(** ** Evaluation on the inputs named by the specification *)

Example str_in_mixed : str_in "WPA2" "WPA/WPA2 Mixed" = true.
Proof. reflexivity. Qed.

Example str_in_empty_needle : str_in "" "abc" = true.
Proof. reflexivity. Qed.

Example slice_short : slice_to 14 "WEP" = "WEP".
Proof. reflexivity. Qed.

Example slice_long : slice_to 14 "WPA-Personal/WPA2-Personal" = "WPA-Personal/W".
Proof. reflexivity. Qed.

Example upper_mixed : upper "wpa2-Personal" = "WPA2-PERSONAL".
Proof. reflexivity. Qed.

Example cli_end_to_end :
  map Cli.listed_risk
      [ {[ "ssid" := "CafeNet"; "security" := "OPEN" ]};
        {[ "ssid" := "Home"; "security" := "WPA2-Personal" ]};
        {[ "ssid" := ""; "security" := "WEP" ]} ]
  = [HIGH; LOW; CRITICAL].
Proof. vm_compute. reflexivity. Qed.

Example gui_end_to_end :
  map Gui.shown_threat
      [ {[ "ssid" := "CafeNet"; "security" := "OPEN" ]};
        {[ "ssid" := "Home"; "security" := "WPA2-Personal" ]};
        {[ "ssid" := ""; "security" := "WEP" ]} ]
  = [CRITICAL; MEDIUM; CRITICAL].
Proof. vm_compute. reflexivity. Qed.

Example gui_fallback_scan :
  map Gui.threat_level ["WPA3-Enterprise"; "Quantum-Encrypted"; "Neural-Locked"; "Zero-Trust"]
  = [HIGH; UNKNOWN; UNKNOWN; UNKNOWN].
Proof. vm_compute. reflexivity. Qed.

(** ** Facts about the string operations *)

Section StringFacts.

Lemma prefix_app_l (a b s : string) :
  String.prefix (a +:+ b) s = true -> String.prefix a s = true.
Proof.
  revert s. induction a as [|c a IH]; intros s H; [now destruct s|].
  destruct s as [|c' s]; simpl in *; [discriminate|].
  destruct (Ascii.ascii_dec c c'); [now apply IH | discriminate].
Qed.

Lemma str_in_unfold (sub s : string) :
  str_in sub s =
  if String.prefix sub s then true
  else match s with EmptyString => false | String _ rest => str_in sub rest end.
Proof. destruct s; reflexivity. Qed.

Lemma str_in_app_l (a b s : string) :
  str_in (a +:+ b) s = true -> str_in a s = true.
Proof.
  induction s as [|c s IH];
    rewrite (str_in_unfold (a +:+ b)), (str_in_unfold a);
    destruct (String.prefix (a +:+ b) _) eqn:E; intros H;
    try rewrite (prefix_app_l _ _ _ E); try reflexivity; try discriminate.
  rewrite (IH H). now destruct (String.prefix a _).
Qed.

Lemma str_in_wpa2_wpa (s : string) : str_in "WPA2" s = true -> str_in "WPA" s = true.
Proof. apply (str_in_app_l "WPA" "2"). Qed.

Lemma str_in_wpa3_wpa (s : string) : str_in "WPA3" s = true -> str_in "WPA" s = true.
Proof. apply (str_in_app_l "WPA" "3"). Qed.

Lemma upper_char_idem (c : ascii) : upper_char (upper_char c) = upper_char c.
Proof. destruct c as [[] [] [] [] [] [] [] []]; reflexivity. Qed.

Lemma upper_lower_char (c : ascii) : upper_char (lower_char c) = upper_char c.
Proof. destruct c as [[] [] [] [] [] [] [] []]; reflexivity. Qed.

Lemma upper_idem (s : string) : upper (upper s) = upper s.
Proof. induction s as [|c s IH]; simpl; [reflexivity|]. now rewrite upper_char_idem, IH. Qed.

Lemma upper_lower (s : string) : upper (lower s) = upper s.
Proof. induction s as [|c s IH]; simpl; [reflexivity|]. now rewrite upper_lower_char, IH. Qed.

Lemma prefix_upper (a s : string) :
  String.prefix a s = true -> String.prefix (upper a) (upper s) = true.
Proof.
  revert s. induction a as [|c a IH]; intros s H; [now destruct s|].
  destruct s as [|c' s]; simpl in *; [discriminate|].
  destruct (Ascii.ascii_dec c c') as [->|]; [|discriminate].
  destruct (Ascii.ascii_dec (upper_char c') (upper_char c')); [now apply IH | congruence].
Qed.

Lemma str_in_upper (a s : string) :
  str_in a s = true -> str_in (upper a) (upper s) = true.
Proof.
  induction s as [|c s IH]; rewrite (str_in_unfold a), (str_in_unfold (upper a));
    destruct (String.prefix a _) eqn:E; intros H;
    try rewrite (prefix_upper _ _ E); try reflexivity; try discriminate.
  simpl upper. cbv iota. rewrite (IH H).
  destruct (String.prefix (upper a) _); reflexivity.
Qed.

Lemma slice_to_app (n : nat) (d x : string) :
  (n <= String.length d)%nat -> slice_to n (d +:+ x) = slice_to n d.
Proof.
  revert d. induction n as [|n IH]; intros d H; [reflexivity|].
  destruct d as [|c d]; simpl in *; [lia|]. f_equal. apply IH. lia.
Qed.

Lemma len_prefix_le (s1 s2 : string) :
  String.prefix s1 s2 = true -> (len s1 <= len s2)%Z.
Proof.
  unfold len. revert s2. induction s1 as [|c s1 IH]; intros s2 H; simpl.
  - lia.
  - destruct s2 as [|c' s2]; simpl in *; [discriminate|].
    destruct (Ascii.ascii_dec c c'); [|discriminate].
    specialize (IH _ H). lia.
Qed.

End StringFacts.

(** ** The classifiers, seen from one network *)

Section ClassifierFacts.

Lemma listed_risk_eq (net : Network) :
  Cli.listed_risk net = fst (Cli.risk_of (slice_to 14 (Cli.security_field net))).
Proof.
  unfold Cli.listed_risk, Cli.wifi_scan_row.
  now destruct (Cli.risk_of (slice_to 14 (Cli.security_field net))).
Qed.

Lemma shown_threat_eq (net : Network) :
  Gui.shown_threat net = Gui.threat_level (Gui.security_field net).
Proof. reflexivity. Qed.

Lemma backup_threat_level_eq (security : string) :
  GuiBackup.threat_level security = Gui.threat_level security.
Proof. reflexivity. Qed.

Lemma cli_security_insert (net : Network) (d : string) :
  Cli.security_field (<["security" := d]> net) = d.
Proof. unfold Cli.security_field. now rewrite lookup_insert_eq. Qed.

Lemma gui_security_insert (net : Network) (d : string) :
  Gui.security_field (<["security" := d]> net) = d.
Proof. unfold Gui.security_field. now rewrite lookup_insert_eq. Qed.


(** The fourth test of the GUI chain is only reached with "WPA" absent. *)
Lemma threat_level_cases (security : string) :
  Gui.threat_level security = CRITICAL \/ Gui.threat_level security = HIGH \/
  Gui.threat_level security = MEDIUM \/ Gui.threat_level security = UNKNOWN.
Proof.
  unfold Gui.threat_level.
  destruct (str_in "WEP" (upper security) || str_in "OPEN" (upper security)); [now left|].
  destruct (str_in "WPA2" (upper security)) eqn:E2.
  - rewrite (str_in_wpa2_wpa _ E2). simpl. auto.
  - destruct (str_in "WPA" (upper security)) eqn:E; simpl; [auto|].
    destruct (str_in "WPA3" (upper security)) eqn:E3; [|auto].
    apply str_in_wpa3_wpa in E3. congruence.
Qed.

End ClassifierFacts.

(** ** Precedence of the WPA2 test (C1) *)

(** C1, as stated, fails: the GUI classifier gives the descriptor
    "WPA/WPA2 Mixed" the tier MEDIUM. *)
Lemma wpa_with_wpa2_not_always_low :
  let d := "WPA/WPA2 Mixed" in
  (str_in "WPA" d = true /\ str_in "WPA2" d = true /\ str_in "WEP" d = false /\
   str_in "OPEN" d = false /\ str_in "NONE" d = false) /\
  Gui.security_field {[ "security" := d ]} = d /\
  Gui.shown_threat {[ "security" := d ]} = MEDIUM /\
  Gui.shown_threat {[ "security" := d ]} <> LOW.
Proof. vm_compute. repeat split; congruence. Qed.

(** C1 (amended): in the CLI a network whose security field contains "WPA2"
    and neither "WEP" nor "OPEN" is rated LOW, not MEDIUM: by the audit
    report always, and by the listing when the field has at most 14
    characters; "WPA/WPA2 Mixed" is listed LOW.  In the GUI a network whose
    upper-cased descriptor contains "WPA2" and neither "WEP" nor "OPEN" is
    MEDIUM. *)
Theorem wpa2_precedence (net : Network) :
  (str_in "WPA2" (Cli.security_field net) = true ->
   str_in "WEP" (Cli.security_field net) = false ->
   str_in "OPEN" (Cli.security_field net) = false ->
   Cli.audit_risk net = LOW /\
   ((String.length (Cli.security_field net) <= 14)%nat -> Cli.listed_risk net = LOW)) /\
  (str_in "WPA2" (upper (Gui.security_field net)) = true ->
   str_in "WEP" (upper (Gui.security_field net)) = false ->
   str_in "OPEN" (upper (Gui.security_field net)) = false ->
   Gui.shown_threat net = MEDIUM) /\
  Cli.listed_risk {[ "security" := "WPA/WPA2 Mixed" ]} = LOW.
Proof.
  split; [|split].
  - intros H2 Hwep Hopen.
    assert (Haudit : Cli.audit_risk net = LOW).
    { unfold Cli.audit_risk, Cli.risk_of.
      rewrite Hwep, Hopen, H2. now rewrite andb_false_r. }
    split; [exact Haudit|]. intros Hlen.
    rewrite listed_risk_eq. rewrite <- Haudit. unfold Cli.audit_risk.
    f_equal. f_equal. revert Hlen. generalize (Cli.security_field net).
    intros d. revert d. generalize 14%nat.
    induction n as [|n IH]; intros [|c d]; simpl; intros Hlen;
      try reflexivity; try lia.
    f_equal. apply IH. lia.
  - intros H2 Hwep Hopen. rewrite shown_threat_eq. unfold Gui.threat_level.
    rewrite Hwep, Hopen, H2. now rewrite andb_false_r.
  - vm_compute. reflexivity.
Qed.

Lemma wpa2_precedence_witness :
  Cli.audit_risk {[ "security" := "WPA/WPA2 Mixed" ]} = LOW /\
  Cli.listed_risk {[ "security" := "WPA/WPA2 Mixed" ]} = LOW /\
  Gui.shown_threat {[ "security" := "WPA/WPA2 Mixed" ]} = MEDIUM.
Proof.
  destruct (wpa2_precedence {[ "security" := "WPA/WPA2 Mixed" ]}) as (Hcli & Hgui & _).
  destruct Hcli as (Haudit & Hlisted); try (vm_compute; reflexivity).
  split; [exact Haudit|]. split.
  - apply Hlisted. vm_compute. lia.
  - apply Hgui; vm_compute; reflexivity.
Defined.

(** ** Descriptors that match no token (C2) *)




(** ** Open networks (C3) *)




(** ** Letter case of the descriptor (C7) *)

(** C7, as stated, fails in the CLI listing, which compares the field as
    it stands: "wep" is listed LOW and its upper-cased form CRITICAL. *)
Lemma listing_is_case_sensitive :
  upper "wep" = "WEP" /\
  Cli.listed_risk {[ "security" := "wep" ]} = LOW /\
  Cli.listed_risk {[ "security" := upper "wep" ]} = CRITICAL /\
  Cli.listed_risk {[ "security" := "wep" ]}
    <> Cli.listed_risk {[ "security" := upper "wep" ]}.
Proof. vm_compute. repeat split; congruence. Qed.

(** C7 (amended): the GUI classifier is case-insensitive in the security
    descriptor: a descriptor, its upper-cased form and its lower-cased form
    receive the same threat level, also as the field of a network, and a
    descriptor containing "wep" or "WEP" is CRITICAL. *)
Theorem gui_threat_case_insensitive (security : string) :
  Gui.threat_level (upper security) = Gui.threat_level security /\
  Gui.threat_level (lower security) = Gui.threat_level security /\
  (forall net : Network,
     Gui.shown_threat (<["security" := upper security]> net)
     = Gui.shown_threat (<["security" := security]> net) /\
     Gui.shown_threat (<["security" := lower security]> net)
     = Gui.shown_threat (<["security" := security]> net)) /\
  (str_in "wep" security = true -> Gui.threat_level security = CRITICAL) /\
  (str_in "WEP" security = true -> Gui.threat_level security = CRITICAL).
Proof.
  assert (Hup : Gui.threat_level (upper security) = Gui.threat_level security)
    by (unfold Gui.threat_level; now rewrite upper_idem).
  assert (Hlow : Gui.threat_level (lower security) = Gui.threat_level security)
    by (unfold Gui.threat_level; now rewrite upper_lower).
  repeat split; trivial.
  - now rewrite !shown_threat_eq, !gui_security_insert.
  - now rewrite !shown_threat_eq, !gui_security_insert.
  - intros H. apply str_in_upper in H. unfold Gui.threat_level.
    change (upper "wep") with "WEP" in H. now rewrite H.
  - intros H. apply str_in_upper in H. unfold Gui.threat_level.
    change (upper "WEP") with "WEP" in H. now rewrite H.
Qed.

Lemma gui_threat_case_insensitive_witness :
  Gui.threat_level "wep-shared" = CRITICAL /\ Gui.threat_level "WEP-Shared" = CRITICAL.
Proof.
  destruct (gui_threat_case_insensitive "wep-shared") as (_ & _ & _ & Hlower & _).
  destruct (gui_threat_case_insensitive "WEP-Shared") as (_ & _ & _ & _ & Hupper).
  split; [apply Hlower | apply Hupper]; vm_compute; reflexivity.
Defined.

(** ** The LOW branch of the GUI classifier (C9) *)

(** C9: the GUI scan-result classifier never assigns LOW.  A descriptor
    whose upper-cased form contains "WPA3" meets the condition of an earlier
    branch (the HIGH branch when "WPA2" is absent, the MEDIUM branch when it
    is present), so every network shown, in either GUI, is CRITICAL, HIGH,
    MEDIUM or UNKNOWN. *)
Theorem gui_never_low (security : string) :
  Gui.threat_level security <> LOW /\
  GuiBackup.threat_level security <> LOW /\
  (str_in "WPA3" (upper security) = true ->
   (str_in "WPA2" (upper security) = false ->
    str_in "WPA" (upper security) && negb (str_in "WPA2" (upper security)) = true) /\
   (str_in "WPA2" (upper security) = true ->
    str_in "WPA" (upper security) && negb (str_in "WPA2" (upper security)) = false /\
    str_in "WPA2" (upper security) = true) /\
   Gui.threat_level security <> UNKNOWN) /\
  (forall (networks : list Network) (tab : Gui.ScanTab),
     Forall (fun row => Gui.tree_threat row = CRITICAL \/ Gui.tree_threat row = HIGH \/
                        Gui.tree_threat row = MEDIUM \/ Gui.tree_threat row = UNKNOWN)
            (Gui.network_tree (Gui.display_scan_results networks tab))).
Proof.
  assert (Hnl : Gui.threat_level security <> LOW)
    by (destruct (threat_level_cases security) as [H|[H|[H|H]]]; rewrite H; discriminate).
  split; [exact Hnl|]. split; [exact Hnl|]. split.
  - intros H3. pose proof (str_in_wpa3_wpa _ H3) as Hwpa.
    split; [|split].
    + intros H2. now rewrite Hwpa, H2.
    + intros H2. rewrite H2. split; [apply andb_false_r | reflexivity].
    + unfold Gui.threat_level. rewrite Hwpa, H3.
      destruct (str_in "WEP" (upper security) || str_in "OPEN" (upper security));
        [discriminate|].
      destruct (str_in "WPA2" (upper security)); discriminate.
  - intros networks tab. simpl. induction networks as [|net rest IH]; simpl.
    + constructor.
    + constructor; [apply threat_level_cases | exact IH].
Qed.

Lemma gui_never_low_witness :
  Gui.threat_level "WPA3-Enterprise" <> UNKNOWN /\
  str_in "WPA" (upper "WPA3-Enterprise")
    && negb (str_in "WPA2" (upper "WPA3-Enterprise")) = true /\
  str_in "WPA2" (upper "wpa2/wpa3 mixed") = true.
Proof.
  destruct (gui_never_low "WPA3-Enterprise") as (_ & _ & Hwpa3 & _).
  destruct Hwpa3 as (Hhigh & _ & Hknown); [vm_compute; reflexivity|].
  destruct (gui_never_low "wpa2/wpa3 mixed") as (_ & _ & Hmixed & _).
  destruct Hmixed as (_ & Hmedium & _); [vm_compute; reflexivity|].
  split; [exact Hknown|]. split.
  - apply Hhigh. vm_compute. reflexivity.
  - apply Hmedium. vm_compute. reflexivity.
Defined.

(** ** The listing reads a cut field (C10) *)

(** C10: in the CLI listing the risk depends only on the first 14
    characters of the security field: two networks whose fields agree on
    them are listed with the same risk, and whatever follows a field of 14
    characters or more, a "WEP" token included, does not change the risk. *)
Theorem listed_risk_first_14 (net1 net2 : Network) :
  (slice_to 14 (Cli.security_field net1) = slice_to 14 (Cli.security_field net2) ->
   Cli.listed_risk net1 = Cli.listed_risk net2) /\
  (forall d rest : string,
     (14 <= String.length d)%nat ->
     Cli.listed_risk (<["security" := d +:+ rest]> net1)
     = Cli.listed_risk (<["security" := d]> net1)).
Proof.
  split.
  - intros H. now rewrite !listed_risk_eq, H.
  - intros d rest Hlen.
    now rewrite !listed_risk_eq, !cli_security_insert, slice_to_app.
Qed.

Lemma listed_risk_first_14_witness :
  Cli.listed_risk {[ "security" := "WPA2-Personal WEP" ]}
  = Cli.listed_risk {[ "security" := "WPA2-Personal " ]} /\
  Cli.listed_risk (<["security" := "WPA2-Personal " +:+ "WEP"]> ∅)
  = Cli.listed_risk (<["security" := "WPA2-Personal "]> ∅) /\
  Cli.listed_risk {[ "security" := "WPA2-Personal WEP" ]} = LOW /\
  Cli.audit_risk {[ "security" := "WPA2-Personal WEP" ]} = CRITICAL.
Proof.
  destruct (listed_risk_first_14 {[ "security" := "WPA2-Personal WEP" ]}
                                 {[ "security" := "WPA2-Personal " ]}) as (Hsame & _).
  destruct (listed_risk_first_14 ∅ ∅) as (_ & Htail).
  split; [|split; [|split]].
  - apply Hsame. vm_compute. reflexivity.
  - apply Htail. vm_compute. lia.
  - vm_compute. reflexivity.
  - vm_compute. reflexivity.
Defined.

(** ** The fallback analyzer and the empty password (C4, C5) *)

Section FallbackAnalyzer.

Import Rand.

Lemma randint_range (a b : Z) (g : Random) :
  (a <= b)%Z -> (a <= fst (randint a b g) <= b)%Z.
Proof.
  intros Hab. unfold randint, randbelow, next_word. cbn [fst].
  assert (Hn : (Z.to_N (b - a + 1) <> 0)%N) by lia.
  pose proof (N.mod_lt (source g (consumed g)) _ Hn) as Hlt.
  set (k := (source g (consumed g) mod Z.to_N (b - a + 1))%N) in *.
  clearbody k. lia.
Qed.

Lemma analyze_score (password : string) (g : Random) :
  Gui.score (fst (Gui.analyze password g)) = fst (randint 20 95 g).
Proof. reflexivity. Qed.

Lemma analyze_score_range (password : string) (g : Random) :
  (20 <= Gui.score (fst (Gui.analyze password g)) <= 95)%Z.
Proof. rewrite analyze_score. apply randint_range. lia. Qed.

Lemma strength_word_critical (score : Z) :
  Gui.strength_word score = "CRITICAL" -> (score < 20)%Z.
Proof.
  unfold Gui.strength_word, Gui.strength_band.
  destruct (80 <=? score)%Z; [discriminate|].
  destruct (60 <=? score)%Z; [discriminate|].
  destruct (40 <=? score)%Z; [discriminate|].
  destruct (20 <=? score)%Z eqn:E; [discriminate|]. lia.
Qed.

End FallbackAnalyzer.

(** C4, as stated, fails: the CLI turns an empty password away with a
    warning instead of analysing it, and the analyzer present in the source
    returns, on the empty password, a score of at least 20 (here 20, shown
    as WEAK), not 0 and CRITICAL. *)
Lemma empty_password_not_scored_zero :
  Cli.password_analysis_turn (fun p => fst (Gui.analyze p Rand.counting)) ""
  = Cli.Warned "Password cannot be empty" /\
  Gui.score (fst (Gui.analyze "" Rand.counting)) = 20%Z /\
  Gui.score (fst (Gui.analyze "" Rand.counting)) <> 0%Z /\
  Gui.strength_word (Gui.score (fst (Gui.analyze "" Rand.counting))) = "WEAK".
Proof. vm_compute. repeat split; congruence. Qed.

(** C4 (amended): the analyzer itself has no error path: the fallback
    [analyze] returns a result for every password, the empty one included,
    with a score between 20 and 95, hence never 0 and never labelled
    CRITICAL.  Its callers do reject the empty password before analysing:
    the CLI answers "Password cannot be empty" whatever the analyzer is, and
    the GUI's Analyze button answers "NO PASSWORD INPUT DETECTED". *)
Theorem empty_password_handling :
  (forall (Result : Type) (analyze : string -> Result),
     Cli.password_analysis_turn analyze "" = Cli.Warned "Password cannot be empty") /\
  (forall (tab : Gui.PasswordTab) (g : Rand.Random),
     Gui.analyze_password "" tab g = Gui.Alert "NO PASSWORD INPUT DETECTED") /\
  (forall (password : string) (g : Rand.Random),
     (20 <= Gui.score (fst (Gui.analyze password g)) <= 95)%Z /\
     Gui.score (fst (Gui.analyze password g)) <> 0%Z /\
     Gui.strength_word (Gui.score (fst (Gui.analyze password g))) <> "CRITICAL").
Proof.
  split; [reflexivity|]. split; [reflexivity|].
  intros password g. pose proof (analyze_score_range password g) as Hr.
  split; [exact Hr|]. split; [lia|].
  intros Hc. apply strength_word_critical in Hc. lia.
Qed.

(** C5, as stated, fails for the analyzer present in the source: two
    successive calls on the same password return different results. *)
Lemma fallback_analyze_not_repeatable :
  let '(first, g) := Gui.analyze "hunter2" Rand.counting in
  let '(second, _) := Gui.analyze "hunter2" g in
  Gui.score first = 20%Z /\ Gui.score second = 23%Z /\
  Gui.crack_time first = "2 years" /\ Gui.crack_time second = "5 years" /\
  first <> second.
Proof. vm_compute. repeat split; congruence. Qed.

(** C5 (amended): the fallback [analyze] is a function of the state of the
    random generator alone: from one generator state it returns the same
    result and the same next state for every two passwords (so also for two
    calls on one password), and each call consumes three draws. *)
Theorem fallback_analyze_depends_on_generator_only
  (p q : string) (g : Rand.Random) :
  Gui.analyze p g = Gui.analyze q g /\
  Rand.consumed (snd (Gui.analyze p g)) = S (S (S (Rand.consumed g))) /\
  Rand.source (snd (Gui.analyze p g)) = Rand.source g.
Proof. repeat split. Qed.

(** ** Strength bands (C6) *)

(** C6, as stated, fails at the top band: a score of 80 or more is shown
    as IMPENETRABLE, not EXCELLENT. *)
Lemma top_band_is_impenetrable :
  Gui.strength_word 80 = "IMPENETRABLE" /\
  Gui.strength_word 80 <> "EXCELLENT".
Proof. vm_compute. repeat split; congruence. Qed.

(** C6 (amended): the strength word is derived from the integer score by
    fixed thresholds, inclusive on the lower bound of each band: 80 and
    above IMPENETRABLE, 60 to 79 STRONG, 40 to 59 MODERATE, 20 to 39 WEAK,
    below 20 CRITICAL. *)
Theorem strength_word_thresholds (score : Z) :
  ((80 <= score)%Z -> Gui.strength_word score = "IMPENETRABLE") /\
  ((60 <= score < 80)%Z -> Gui.strength_word score = "STRONG") /\
  ((40 <= score < 60)%Z -> Gui.strength_word score = "MODERATE") /\
  ((20 <= score < 40)%Z -> Gui.strength_word score = "WEAK") /\
  ((score < 20)%Z -> Gui.strength_word score = "CRITICAL").
Proof.
  unfold Gui.strength_word, Gui.strength_band.
  destruct (Z.leb_spec 80 score); [repeat split; (reflexivity || lia)|].
  destruct (Z.leb_spec 60 score); [repeat split; (reflexivity || lia)|].
  destruct (Z.leb_spec 40 score); [repeat split; (reflexivity || lia)|].
  destruct (Z.leb_spec 20 score); repeat split; (reflexivity || lia).
Qed.

Lemma strength_word_thresholds_witness :
  Gui.strength_word 80 = "IMPENETRABLE" /\ Gui.strength_word 79 = "STRONG" /\
  Gui.strength_word 40 = "MODERATE" /\ Gui.strength_word 20 = "WEAK" /\
  Gui.strength_word 19 = "CRITICAL".
Proof.
  destruct (strength_word_thresholds 80) as (H80 & _).
  destruct (strength_word_thresholds 79) as (_ & H79 & _).
  destruct (strength_word_thresholds 40) as (_ & _ & H40 & _).
  destruct (strength_word_thresholds 20) as (_ & _ & _ & H20 & _).
  destruct (strength_word_thresholds 19) as (_ & _ & _ & _ & H19).
  split; [apply H80; lia|]. split; [apply H79; lia|]. split; [apply H40; lia|].
  split; [apply H20; lia | apply H19; lia].
Defined.

(** ** Entropy shown while typing (C8) *)

Section LiveEntropy.

Lemma entropy_after_update (score : Z) (tab : Gui.PasswordTab) :
  Gui.metric_entropy (Gui.update_strength_display score tab)
  = (inject_Z score * (5 # 2))%Q.
Proof.
  unfold Gui.update_strength_display. now destruct (Gui.strength_band score).
Qed.

Lemma on_password_change_empty (tab : Gui.PasswordTab) :
  Gui.metric_entropy (Gui.on_password_change "" tab) = Gui.metric_entropy tab.
Proof. reflexivity. Qed.

Lemma on_password_change_typed (c : ascii) (rest : string) (tab : Gui.PasswordTab) :
  Gui.metric_entropy (Gui.on_password_change (String c rest) tab)
  = (inject_Z (Z.min (len (String c rest) * 6) 100) * (5 # 2))%Q.
Proof.
  unfold Gui.on_password_change.
  assert (Hpos : (0 <? len (String c rest))%Z = true)
    by (apply Z.ltb_lt; unfold len; simpl String.length; lia).
  rewrite Hpos. simpl negb. cbv iota. simpl andb. cbv iota.
  apply entropy_after_update.
Qed.

Lemma scaled_score_le (x y : Z) :
  (x <= y)%Z -> (inject_Z x * (5 # 2) <= inject_Z y * (5 # 2))%Q.
Proof.
  intros H. apply Qmult_le_compat_r; [now rewrite <- Zle_Qle | discriminate].
Qed.

End LiveEntropy.

(** C8, as stated, fails for the entropy shown after the Analyze button,
    which follows the analyzer's score: with the fallback analyzer the
    longer password "abcdef" can be shown with less entropy than its prefix
    "abc", and the analyzer's own entropy field can decrease as well. *)
Lemma analysed_entropy_can_decrease :
  String.prefix "abc" "abcdef" = true /\
  match Gui.analyze_password "abc" Gui.fresh_tab Rand.descending with
  | Gui.Alert _ => False
  | Gui.Shown tab1 _ g =>
      match Gui.analyze_password "abcdef" tab1 g with
      | Gui.Alert _ => False
      | Gui.Shown tab2 _ _ =>
          (Gui.metric_entropy tab1 == 110)%Q /\
          (Gui.metric_entropy tab2 == 205 # 2)%Q /\
          ~ (Gui.metric_entropy tab1 <= Gui.metric_entropy tab2)%Q
      end
  end /\
  (let '(first, g) := Gui.analyze "abc" Rand.descending in
   let '(second, _) := Gui.analyze "abcdef" g in
   ~ (Gui.entropy first <= Gui.entropy second)%Q).
Proof. vm_compute. repeat split; intros H; apply H; reflexivity. Qed.

(** C8 (amended): the entropy shown while a password is typed does not
    decrease as the password grows.  For a non-empty [s1] that is a prefix
    of [s2], the entropy shown after typing [s2] is at least the one shown
    after typing [s1], whatever the tab showed before; starting from the
    tab as built, the same holds for every prefix, the empty one included.
    (No condition on the character classes is needed.) *)
Theorem typed_entropy_monotone_in_length (s1 s2 : string) :
  String.prefix s1 s2 = true ->
  (s1 <> "" ->
   forall tab1 tab2 : Gui.PasswordTab,
     (Gui.metric_entropy (Gui.on_password_change s1 tab1)
      <= Gui.metric_entropy (Gui.on_password_change s2 tab2))%Q) /\
  (Gui.metric_entropy (Gui.on_password_change s1 Gui.fresh_tab)
   <= Gui.metric_entropy (Gui.on_password_change s2 Gui.fresh_tab))%Q.
Proof.
  intros Hpre. pose proof (len_prefix_le _ _ Hpre) as Hlen.
  assert (Htyped : forall c r c' r' tab1 tab2,
             (len (String c r) <= len (String c' r'))%Z ->
             (Gui.metric_entropy (Gui.on_password_change (String c r) tab1)
              <= Gui.metric_entropy (Gui.on_password_change (String c' r') tab2))%Q).
  { intros c r c' r' tab1 tab2 Hle. rewrite !on_password_change_typed.
    apply scaled_score_le. lia. }
  split.
  - intros Hne tab1 tab2. destruct s1 as [|c r]; [congruence|].
    destruct s2 as [|c' r']; [discriminate|]. now apply Htyped.
  - destruct s1 as [|c r].
    + rewrite on_password_change_empty. destruct s2 as [|c' r'].
      * rewrite on_password_change_empty. apply Qle_refl.
      * rewrite on_password_change_typed.
        change (Gui.metric_entropy Gui.fresh_tab) with (inject_Z 0).
        apply Qmult_le_0_compat; [|discriminate].
        change 0%Q with (inject_Z 0). rewrite <- Zle_Qle. unfold len. lia.
    + destruct s2 as [|c' r']; [discriminate|]. now apply Htyped.
Qed.

Lemma typed_entropy_monotone_in_length_witness :
  (Gui.metric_entropy (Gui.on_password_change "abc" Gui.fresh_tab)
   <= Gui.metric_entropy (Gui.on_password_change "abcdef" Gui.fresh_tab))%Q /\
  (Gui.metric_entropy
     (Gui.on_password_change "abc" (Gui.update_strength_display 95 Gui.fresh_tab))
   <= Gui.metric_entropy (Gui.on_password_change "abcdef" Gui.fresh_tab))%Q /\
  (Gui.metric_entropy (Gui.on_password_change "abc" Gui.fresh_tab) == 45)%Q /\
  (Gui.metric_entropy (Gui.on_password_change "abcdef" Gui.fresh_tab) == 90)%Q.
Proof.
  destruct (typed_entropy_monotone_in_length "abc" "abcdef") as (Hany & Hfresh);
    [reflexivity|].
  split; [exact Hfresh|]. split; [apply Hany; discriminate|].
  split; reflexivity.
Defined.

(** * Further properties of the code *)

(** ** More facts about the string operations *)

Section SliceFacts.

Lemma app_cons (c : ascii) (a b : string) :
  String c a +:+ b = String c (a +:+ b).
Proof. reflexivity. Qed.

Lemma slice_to_length (n : nat) (s : string) :
  (String.length (slice_to n s) <= n)%nat.
Proof.
  revert s. induction n as [|n IH]; intros [|c s]; simpl; try lia.
  specialize (IH s). lia.
Qed.

Lemma slice_to_is_prefix (n : nat) (s : string) :
  String.prefix (slice_to n s) s = true.
Proof.
  revert s. induction n as [|n IH]; intros [|c s]; simpl; try reflexivity.
  destruct (Ascii.ascii_dec c c); [apply IH | congruence].
Qed.

Lemma slice_to_all (n : nat) (s : string) :
  (String.length s <= n)%nat -> slice_to n s = s.
Proof.
  revert s. induction n as [|n IH]; intros [|c s]; simpl; intros H;
    try reflexivity; try lia.
  f_equal. apply IH. lia.
Qed.

Lemma slice_to_snoc (i : nat) (s : string) (c : ascii) :
  String.get i s = Some c ->
  slice_to (S i) s = slice_to i s +:+ String c EmptyString.
Proof.
  revert s. induction i as [|i IH]; intros [|c' s] H; simpl in H;
    try discriminate H.
  - now inversion H.
  - change (slice_to (S (S i)) (String c' s)) with (String c' (slice_to (S i) s)).
    now rewrite (IH _ H).
Qed.

Lemma get_none_length (i : nat) (s : string) :
  String.get i s = None -> (String.length s <= i)%nat.
Proof.
  revert s. induction i as [|i IH]; intros [|c s] H; simpl in H |- *;
    try discriminate H; try lia.
  specialize (IH _ H). lia.
Qed.

Lemma get_some_lt (i : nat) (s : string) :
  (i < String.length s)%nat -> exists c, String.get i s = Some c.
Proof.
  revert s. induction i as [|i IH]; intros [|c s] H; simpl in H |- *; try lia.
  - now exists c.
  - apply IH. lia.
Qed.

Lemma get_slice_from (i k : nat) (s : string) :
  String.get k (slice_from i s) = String.get (i + k) s.
Proof.
  revert s. induction i as [|i IH]; intros s; [reflexivity|].
  destruct s as [|c s]; simpl; [now destruct k | apply IH].
Qed.

Lemma length_slice_from (i : nat) (s : string) :
  String.length (slice_from i s) = (String.length s - i)%nat.
Proof.
  revert s. induction i as [|i IH]; intros [|c s]; simpl; try lia. apply IH.
Qed.

Lemma slice_to_from (i : nat) (s : string) :
  slice_to i s +:+ slice_from i s = s.
Proof.
  revert s. induction i as [|i IH]; intros [|c s]; simpl; try reflexivity.
  rewrite app_cons. f_equal. apply IH.
Qed.

Lemma str_length_app (a b : string) :
  String.length (a +:+ b) = (String.length a + String.length b)%nat.
Proof.
  induction a as [|c a IH]; [reflexivity|].
  rewrite app_cons. simpl. now rewrite IH.
Qed.

End SliceFacts.

(** ** The CLI listing and the choice that follows it *)

Section Listing.

Lemma wifi_scan_rows_lookup (i : Z) (networks : list Network) (k : nat) :
  Cli.wifi_scan_rows i networks !! k
  = Cli.wifi_scan_row (i + Z.of_nat k) <$> networks !! k.
Proof.
  revert i k. induction networks as [|net rest IH]; intros i k; [reflexivity|].
  destruct k as [|k]; simpl.
  - now rewrite Z.add_0_r.
  - rewrite IH. do 2 f_equal. lia.
Qed.

Lemma wifi_scan_rows_length (i : Z) (networks : list Network) :
  length (Cli.wifi_scan_rows i networks) = length networks.
Proof.
  revert i. induction networks as [|net rest IH]; intros i; simpl; [reflexivity|].
  now rewrite IH.
Qed.

Lemma wifi_scan_row_number (i : Z) (net : Network) :
  Cli.row_number (Cli.wifi_scan_row i net) = i.
Proof.
  unfold Cli.wifi_scan_row.
  now destruct (Cli.risk_of (slice_to 14 (Cli.security_field net))).
Qed.

Lemma wifi_scan_row_fields (i : Z) (net : Network) :
  Cli.row_ssid (Cli.wifi_scan_row i net) = slice_to 24 (default "Hidden" (net !! "ssid")) /\
  Cli.row_security (Cli.wifi_scan_row i net) = slice_to 14 (Cli.security_field net) /\
  Cli.row_signal (Cli.wifi_scan_row i net) = slice_to 9 (default "N/A" (net !! "signal")) /\
  Cli.row_risk (Cli.wifi_scan_row i net) = Cli.listed_risk net.
Proof.
  unfold Cli.listed_risk, Cli.wifi_scan_row.
  now destruct (Cli.risk_of (slice_to 14 (Cli.security_field net))).
Qed.

End Listing.

(** X1: [wifi_scan] answers an empty scan with the "no networks" error and
    otherwise lists exactly one row per network, in the order of the scan,
    numbered from 1: the row at position [k] carries the number [k + 1] and
    is built from the network at position [k]. *)
Theorem wifi_scan_lists_in_order (networks : list Network) :
  Cli.wifi_scan [] = Cli.NoNetworks /\
  (networks <> [] ->
   exists rows,
     Cli.wifi_scan networks = Cli.Listing rows /\
     length rows = length networks /\
     forall (k : nat) (net : Network),
       networks !! k = Some net ->
       exists row,
         rows !! k = Some row /\
         Cli.row_number row = (Z.of_nat k + 1)%Z /\
         row = Cli.wifi_scan_row (Z.of_nat k + 1) net /\
         Cli.row_risk row = Cli.listed_risk net).
Proof.
  split; [reflexivity|]. intros Hne.
  exists (Cli.wifi_scan_rows 1 networks). split; [|split].
  - destruct networks; [congruence | reflexivity].
  - apply wifi_scan_rows_length.
  - intros k net Hk. exists (Cli.wifi_scan_row (Z.of_nat k + 1) net).
    rewrite wifi_scan_rows_lookup, Hk. simpl.
    replace (1 + Z.of_nat k)%Z with (Z.of_nat k + 1)%Z by lia.
    split; [reflexivity|]. split; [apply wifi_scan_row_number|].
    split; [reflexivity | apply wifi_scan_row_fields].
Qed.

Lemma wifi_scan_lists_in_order_witness :
  exists rows,
    Cli.wifi_scan [ {[ "ssid" := "CafeNet"; "security" := "OPEN" ]};
                    {[ "ssid" := "Home"; "security" := "WPA2-Personal" ]} ]
    = Cli.Listing rows /\ length rows = 2%nat.
Proof.
  destruct (wifi_scan_lists_in_order
              [ {[ "ssid" := "CafeNet"; "security" := "OPEN" ]};
                {[ "ssid" := "Home"; "security" := "WPA2-Personal" ]} ])
    as (_ & Hrows).
  destruct Hrows as (rows & Hscan & Hlen & _); [discriminate|].
  exists rows. split; [exact Hscan | exact Hlen].
Defined.

(** X2: every field of a listed row fits its column: the SSID shown has at
    most 24 characters, the security at most 14 and the signal at most 9,
    and each is a prefix of the value found in the scan (or of the
    placeholder used when the key is missing). *)
Theorem listed_fields_fit_columns (i : Z) (net : Network) :
  let row := Cli.wifi_scan_row i net in
  ((String.length (Cli.row_ssid row) <= 24)%nat /\
   String.prefix (Cli.row_ssid row) (default "Hidden" (net !! "ssid")) = true) /\
  ((String.length (Cli.row_security row) <= 14)%nat /\
   String.prefix (Cli.row_security row) (default "Unknown" (net !! "security")) = true) /\
  ((String.length (Cli.row_signal row) <= 9)%nat /\
   String.prefix (Cli.row_signal row) (default "N/A" (net !! "signal")) = true).
Proof.
  cbv zeta. destruct (wifi_scan_row_fields i net) as (-> & -> & -> & _).
  repeat split; (apply slice_to_length || apply slice_to_is_prefix).
Qed.

(** ** Replies typed at the CLI prompts *)

Section Replies.


Lemma clamp_bounds (lo hi x : Z) :
  (lo <= hi)%Z -> (lo <= Z.max lo (Z.min hi x) <= hi)%Z.
Proof. lia. Qed.

Lemma clamp_inside (lo hi x : Z) :
  (lo <= x <= hi)%Z -> Z.max lo (Z.min hi x) = x.
Proof. lia. Qed.

End Replies.



(** X4: the networks [batch_wifi_audit] counts as insecure are exactly the
    networks its report rates CRITICAL or HIGH, in the order of the scan. *)
Theorem insecure_networks_are_critical_or_high (networks : list Network) :
  Cli.insecure_networks networks
  = List.filter (fun net => match Cli.audit_risk net with
                            | CRITICAL | HIGH => true
                            | _ => false
                            end) networks.
Proof.
  assert (Hfold : forall (f : Network -> bool) l acc,
             fold_left (fun acc net => if f net then (acc ++ [net])%list else acc) l acc
             = (acc ++ List.filter f l)%list).
  { intros f l. induction l as [|net rest IH]; intros acc; simpl.
    - now rewrite app_nil_r.
    - rewrite IH. destruct (f net); [|reflexivity].
      now rewrite <- app_assoc. }
  unfold Cli.insecure_networks. rewrite Hfold. simpl.
  apply List.filter_ext. intros net.
  unfold Cli.insecure, Cli.audit_risk, Cli.risk_of, Cli.security_field.
  destruct (net !! "security") as [d|]; simpl; [|reflexivity].
  destruct (str_in "WEP" d); [reflexivity|].
  destruct (str_in "OPEN" d); [reflexivity|].
  now destruct (str_in "WPA" d && negb (str_in "WPA2" d)).
Qed.



(** ** The batch password check *)

Section BatchCheckFacts.
Context {Result : Type}.
Variable analyze : string -> Result.
Variable score : Result -> Z.

Lemma check_password_fold (passwords : list string)
  (results : list (string * Result)) (weak : list (string * Z)) :
  fold_left (Cli.check_password analyze score) passwords (results, weak)
  = ((results ++ map (fun p => (p, analyze p)) passwords)%list,
     (weak ++ map (fun p => (p, score (analyze p)))
                  (List.filter (fun p => (score (analyze p) <? 40)%Z) passwords))%list).
Proof.
  revert results weak.
  induction passwords as [|p rest IH]; intros results weak; simpl.
  - now rewrite !app_nil_r.
  - unfold Cli.check_password at 2. simpl. rewrite IH.
    destruct (score (analyze p) <? 40)%Z; simpl; now rewrite <- !app_assoc.
Qed.

End BatchCheckFacts.

(** X6: [batch_password_check] analyses the first 1000 passwords of the file
    and no other, in order; its list of weak passwords holds exactly those
    of them whose score is below 40, each with its score; and the report
    names at most 50 weak passwords, showing at most the first 10
    characters of each. *)
Theorem batch_check_weak_passwords {Result : Type}
  (analyze : string -> Result) (score : Result -> Z) (passwords : list string) :
  let checked := take 1000 passwords in
  let results := (Cli.batch_check analyze score passwords).1 in
  let weak := (Cli.batch_check analyze score passwords).2 in
  results = map (fun p => (p, analyze p)) checked /\
  weak = map (fun p => (p, score (analyze p)))
             (List.filter (fun p => (score (analyze p) <? 40)%Z) checked) /\
  (length results <= 1000)%nat /\
  (length weak <= length results)%nat /\
  (length (Cli.weak_lines weak) <= 50)%nat /\
  (forall entry : string * Z,
     exists shown,
       Cli.weak_line entry
       = shown +:+ "... - Score: " +:+ pretty entry.2 +:+ "/100" /\
       (String.length shown <= 10)%nat /\ String.prefix shown entry.1 = true).
Proof.
  cbv zeta. unfold Cli.batch_check. rewrite check_password_fold. simpl.
  split; [reflexivity|]. split; [reflexivity|].
  rewrite !length_map. split; [rewrite length_take; lia|].
  split; [apply List.filter_length_le|].
  split.
  - unfold Cli.weak_lines. rewrite length_map, length_take. lia.
  - intros entry. exists (slice_to 10 entry.1).
    split; [reflexivity|]. split; [apply slice_to_length | apply slice_to_is_prefix].
Qed.

(** ** What the password tab shows while a password is typed *)

Section Typing.

Lemma typed_tab (c : ascii) (rest : string) (tab : Gui.PasswordTab) :
  Gui.on_password_change (String c rest) tab
  = Gui.update_strength_display
      (Z.min (len (String c rest) * 6) 100)
      {| Gui.current_password := String c rest;
         Gui.strength_bar_color := Gui.strength_bar_color tab;
         Gui.strength_label := Gui.strength_label tab;
         Gui.metric_entropy := Gui.metric_entropy tab;
         Gui.metric_crack := Gui.metric_crack tab;
         Gui.metric_pattern := Gui.metric_pattern tab;
         Gui.metric_breach := Gui.metric_breach tab;
         Gui.passwords_analyzed := Gui.passwords_analyzed tab |}.
Proof.
  unfold Gui.on_password_change.
  assert (Hpos : (0 <? len (String c rest))%Z = true)
    by (apply Z.ltb_lt; unfold len; simpl String.length; lia).
  rewrite Hpos. reflexivity.
Qed.

Lemma label_after_update (score : Z) (tab : Gui.PasswordTab) :
  Gui.strength_label (Gui.update_strength_display score tab)
  = "[" +:+ Gui.strength_word score +:+ "] SCORE: " +:+ pretty score +:+ "/100".
Proof.
  unfold Gui.update_strength_display, Gui.strength_word.
  now destruct (Gui.strength_band score).
Qed.

End Typing.

(** X7: while a password is typed, the strength shown depends on its length
    alone: 1 to 3 characters are shown CRITICAL, 4 to 6 WEAK, 7 to 9
    MODERATE, 10 to 13 STRONG and 14 or more IMPENETRABLE, with the score
    6 times the length, capped at 100. *)
Theorem typed_strength_depends_on_length (password : string) (tab : Gui.PasswordTab) :
  password <> "" ->
  let n := len password in
  let shown := Gui.strength_label (Gui.on_password_change password tab) in
  (exists word,
     shown = "[" +:+ word +:+ "] SCORE: " +:+ pretty (Z.min (n * 6) 100) +:+ "/100" /\
     ((n <= 3)%Z -> word = "CRITICAL") /\
     ((4 <= n <= 6)%Z -> word = "WEAK") /\
     ((7 <= n <= 9)%Z -> word = "MODERATE") /\
     ((10 <= n <= 13)%Z -> word = "STRONG") /\
     ((14 <= n)%Z -> word = "IMPENETRABLE")) /\
  ((17 <= n)%Z -> shown = "[IMPENETRABLE] SCORE: 100/100").
Proof.
  intros Hne. cbv zeta. destruct password as [|c rest]; [congruence|].
  rewrite typed_tab, label_after_update.
  set (n := len (String c rest)).
  assert (Hword : forall lo, (lo <= Z.min (n * 6) 100)%Z ->
                             (lo <=? Z.min (n * 6) 100)%Z = true)
    by (intros; now apply Z.leb_le).
  assert (Hnot : forall lo, (Z.min (n * 6) 100 < lo)%Z ->
                            (lo <=? Z.min (n * 6) 100)%Z = false)
    by (intros; now apply Z.leb_gt).
  split.
  - exists (Gui.strength_word (Z.min (n * 6) 100)). split; [reflexivity|].
    unfold Gui.strength_word, Gui.strength_band.
    repeat split; intros Hn.
    + rewrite !Hnot by lia. reflexivity.
    + rewrite (Hnot 80%Z), (Hnot 60%Z), (Hnot 40%Z), (Hword 20%Z) by lia. reflexivity.
    + rewrite (Hnot 80%Z), (Hnot 60%Z), (Hword 40%Z) by lia. reflexivity.
    + rewrite (Hnot 80%Z), (Hword 60%Z) by lia. reflexivity.
    + rewrite (Hword 80%Z) by lia. reflexivity.
  - intros Hn. replace (Z.min (n * 6) 100) with 100%Z by lia. reflexivity.
Qed.

Lemma typed_strength_depends_on_length_witness :
  Gui.strength_label (Gui.on_password_change "aaaaaaaaaaaaaaaaa" Gui.fresh_tab)
  = "[IMPENETRABLE] SCORE: 100/100" /\
  exists word,
    Gui.strength_label (Gui.on_password_change "abc" Gui.fresh_tab)
    = "[" +:+ word +:+ "] SCORE: " +:+ pretty (Z.min (len "abc" * 6) 100) +:+ "/100" /\
    word = "CRITICAL".
Proof.
  destruct (typed_strength_depends_on_length "aaaaaaaaaaaaaaaaa" Gui.fresh_tab)
    as (_ & Hlong); [discriminate|].
  destruct (typed_strength_depends_on_length "abc" Gui.fresh_tab)
    as ((word & Hshown & Hcrit & _) & _); [discriminate|].
  split; [apply Hlong; vm_compute; discriminate|].
  exists word. split; [exact Hshown | apply Hcrit; vm_compute; discriminate].
Defined.

(** ** The fallback password generator and the typewriter *)

Section Generator.

Import Rand.

Lemma get_in (k : nat) (s : string) (c : ascii) :
  String.get k s = Some c -> In c (list_ascii_of_string s).
Proof.
  revert s. induction k as [|k IH]; intros [|c' s] H; simpl in H;
    try discriminate H.
  - inversion H. now left.
  - right. now apply IH.
Qed.

Lemma choice_nonempty (seq : string) (g : Random) :
  seq <> "" ->
  exists c, fst (choice seq g) = Some c /\ In c (list_ascii_of_string seq) /\
            snd (choice seq g) = snd (next_word g).
Proof.
  intros Hne. unfold choice, randbelow, next_word. cbn [fst snd].
  set (n := N.of_nat (String.length seq)).
  assert (Hn : n <> 0%N) by (destruct seq; [congruence | subst n; simpl; lia]).
  pose proof (N.mod_lt (source g (consumed g)) n Hn) as Hlt.
  set (k := (source g (consumed g) mod n)%N) in *. clearbody k.
  destruct (get_some_lt (N.to_nat k) seq) as (c & Hc); [subst n; lia|].
  exists c. rewrite Hc. split; [reflexivity|]. split; [|reflexivity].
  now apply get_in with (N.to_nat k).
Qed.

Lemma join_choices_spec (n : nat) (g : Random) :
  exists s,
    fst (Gui.join_choices n g) = Some s /\
    String.length s = n /\
    (forall c, In c (list_ascii_of_string s) -> In c (list_ascii_of_string Gui.chars)) /\
    consumed (snd (Gui.join_choices n g)) = (consumed g + n)%nat /\
    source (snd (Gui.join_choices n g)) = source g.
Proof.
  revert g. induction n as [|n IH]; intros g.
  - exists EmptyString. simpl.
    split; [reflexivity|]. split; [reflexivity|]. split; [intros c []|].
    split; [lia | reflexivity].
  - destruct (choice_nonempty Gui.chars g) as (c & Hc & Hin & Hg); [discriminate|].
    change (Gui.join_choices (S n) g) with
      (let '(c, g1) := choice Gui.chars g in
       match c with
       | None => (None, g1)
       | Some c => let '(rest, g2) := Gui.join_choices n g1 in (String c <$> rest, g2)
       end).
    destruct (choice Gui.chars g) as [oc g1]. cbn [fst snd] in Hc, Hg. subst oc.
    destruct (IH g1) as (s & Hs & Hlen & Hall & Hcons & Hsrc).
    destruct (Gui.join_choices n g1) as [rest g2]. cbn [fst snd] in Hs, Hcons, Hsrc |- *.
    subst rest. exists (String c s).
    split; [reflexivity|]. split; [cbn [String.length]; congruence|]. split.
    + intros c' Hc'.
      change (list_ascii_of_string (String c s)) with (c :: list_ascii_of_string s) in Hc'.
      destruct Hc' as [<- | Hc']; [exact Hin | now apply Hall].
    + rewrite Hcons, Hsrc, Hg. unfold next_word. cbn [fst snd consumed source].
      split; [lia | reflexivity].
Qed.

End Generator.

(** X8: the fallback password generator never fails: it returns a password
    of exactly the requested length (16 when no length is given, empty when
    the length is negative), made only of characters of its alphabet, and
    consumes one random draw per character.  No other keyword argument has
    any effect: the character classes asked for are ignored. *)
Theorem fallback_generate_length_and_alphabet (kwargs : gmap string Z) (g : Rand.Random) :
  let n := Z.to_nat (default 16%Z (kwargs !! "length")) in
  (exists password,
     fst (Gui.generate kwargs g) = Some password /\
     String.length password = n /\
     (forall c, In c (list_ascii_of_string password) ->
                In c (list_ascii_of_string Gui.chars)) /\
     Rand.consumed (snd (Gui.generate kwargs g)) = (Rand.consumed g + n)%nat) /\
  (forall (key : string) (value : Z),
     key <> "length" ->
     Gui.generate (<[key := value]> kwargs) g = Gui.generate kwargs g).
Proof.
  cbv zeta. unfold Gui.generate. split.
  - destruct (join_choices_spec (Z.to_nat (default 16%Z (kwargs !! "length"))) g)
      as (s & Hs & Hlen & Hall & Hcons & _).
    exists s. auto.
  - intros key value Hne. now rewrite lookup_insert_ne.
Qed.

Lemma fallback_generate_length_and_alphabet_witness :
  Gui.generate (<["use_special" := 0%Z]> {[ "length" := 12%Z ]}) Rand.counting
  = Gui.generate {[ "length" := 12%Z ]} Rand.counting /\
  fst (Gui.generate {[ "length" := 12%Z ]} Rand.counting) = Some "abcdefghijkl".
Proof.
  destruct (fallback_generate_length_and_alphabet {[ "length" := 12%Z ]} Rand.counting)
    as (_ & Hflags).
  split; [apply Hflags; discriminate | vm_compute; reflexivity].
Defined.

(** X9: the typewriter shows the generated key one character at a time:
    after [k] calls of [type_char] the variable holds the first [k]
    characters of the text, and from the length of the text on it holds the
    whole text and changes no more. *)
Theorem typewriter_shows_prefixes (text : string) (ticks : nat) :
  Gui.typewriter_effect text ticks = slice_to ticks text /\
  ((String.length text <= ticks)%nat -> Gui.typewriter_effect text ticks = text).
Proof.
  assert (Hgen : forall t i,
             Gui.type_chars text t i (slice_to i text) = slice_to (i + t) text).
  { induction t as [|t IH]; intros i; simpl.
    - now rewrite Nat.add_0_r.
    - unfold Gui.type_char. destruct (String.get i text) as [c|] eqn:Hget.
      + rewrite <- (slice_to_snoc _ _ _ Hget), IH. f_equal. lia.
      + apply get_none_length in Hget.
        rewrite !slice_to_all by lia. reflexivity. }
  assert (Hshown : Gui.typewriter_effect text ticks = slice_to ticks text)
    by (unfold Gui.typewriter_effect; apply (Hgen ticks 0%nat)).
  split; [exact Hshown|]. intros Hlen. rewrite Hshown. now apply slice_to_all.
Qed.

Lemma typewriter_shows_prefixes_witness :
  Gui.typewriter_effect "s3cret" 3 = "s3c" /\ Gui.typewriter_effect "s3cret" 9 = "s3cret".
Proof.
  destruct (typewriter_shows_prefixes "s3cret" 3) as (Hthree & _).
  destruct (typewriter_shows_prefixes "s3cret" 9) as (_ & Hall).
  split; [exact Hthree | apply Hall; vm_compute; lia].
Defined.

(** ** The fallback WiFi report *)

Section ReportFacts.

(** Number of occurrences of a security type among the scanned ones. *)
Local Abbreviation occ key seen :=
  (Z.of_nat (length (List.filter (String.eqb key) seen))).

Lemma bump_get (s key : string) (counts : list (string * Z)) :
  Gui.get_count key (Gui.bump s counts)
  = (Gui.get_count key counts + if String.eqb s key then 1 else 0)%Z.
Proof.
  induction counts as [|[k v] rest IH]; simpl.
  - destruct (String.eqb s key); reflexivity.
  - destruct (String.eqb k s) eqn:Eks; simpl.
    + apply String.eqb_eq in Eks. subst k.
      destruct (String.eqb s key); lia.
    + destruct (String.eqb k key) eqn:Ekk; [|exact IH].
      apply String.eqb_eq in Ekk. subst k. rewrite String.eqb_sym, Eks. lia.
Qed.

Lemma bump_sum (s : string) (counts : list (string * Z)) :
  fold_right Z.add 0%Z (map snd (Gui.bump s counts))
  = (fold_right Z.add 0%Z (map snd counts) + 1)%Z.
Proof.
  induction counts as [|[k v] rest IH]; simpl; [reflexivity|].
  destruct (String.eqb k s); simpl; lia.
Qed.

Lemma bump_keys (s key : string) (counts : list (string * Z)) :
  In key (map fst (Gui.bump s counts)) <-> key = s \/ In key (map fst counts).
Proof.
  induction counts as [|[k v] rest IH]; simpl.
  - intuition.
  - destruct (String.eqb k s) eqn:Eks; simpl.
    + apply String.eqb_eq in Eks. subst k. intuition.
    + rewrite IH. intuition.
Qed.

Lemma bump_nodup (s : string) (counts : list (string * Z)) :
  NoDup (map fst counts) -> NoDup (map fst (Gui.bump s counts)).
Proof.
  induction counts as [|[k v] rest IH]; simpl; intros Hnd.
  - constructor; [apply not_elem_of_nil | constructor].
  - destruct (String.eqb k s) eqn:Eks; simpl; [exact Hnd|].
    apply NoDup_cons in Hnd as [Hk Hrest]. apply NoDup_cons. split; [|now apply IH].
    rewrite list_elem_of_In, bump_keys. rewrite list_elem_of_In in Hk.
    intros [-> | Hin]; [|contradiction].
    now rewrite String.eqb_refl in Eks.
Qed.

Lemma bump_positive (s : string) (counts : list (string * Z)) :
  Forall (fun entry => (0 < entry.2)%Z) counts ->
  Forall (fun entry => (0 < entry.2)%Z) (Gui.bump s counts).
Proof.
  induction counts as [|[k v] rest IH]; simpl; intros Hpos.
  - repeat constructor.
  - apply Forall_cons in Hpos as [Hv Hrest].
    destruct (String.eqb k s); constructor; simpl in *; auto; lia.
Qed.

Lemma get_count_in (key : string) (count : Z) (counts : list (string * Z)) :
  NoDup (map fst counts) -> In (key, count) counts -> Gui.get_count key counts = count.
Proof.
  induction counts as [|[k v] rest IH]; simpl; intros Hnd Hin; [contradiction|].
  apply NoDup_cons in Hnd as [Hk Hrest]. destruct Hin as [Heq | Hin].
  - inversion Heq. subst. now rewrite String.eqb_refl.
  - destruct (String.eqb k key) eqn:Ekk; [|now apply IH].
    apply String.eqb_eq in Ekk. subst k. exfalso. apply Hk.
    rewrite list_elem_of_In. change key with (fst (key, count)). now apply in_map.
Qed.

Lemma get_count_found (key : string) (counts : list (string * Z)) :
  Gui.get_count key counts <> 0%Z -> In (key, Gui.get_count key counts) counts.
Proof.
  induction counts as [|[k v] rest IH]; simpl; intros Hne; [congruence|].
  destruct (String.eqb k key) eqn:Ekk.
  - apply String.eqb_eq in Ekk. subst k. now left.
  - right. now apply IH.
Qed.

Lemma occ_positive (key : string) (seen : list string) :
  (0 < occ key seen)%Z <-> In key seen.
Proof.
  induction seen as [|s rest IH]; simpl; [lia|].
  destruct (String.eqb key s) eqn:E; simpl.
  - apply String.eqb_eq in E. subst s. split; [now left | lia].
  - rewrite IH. split; [now right|]. intros [<- | H]; [|exact H].
    now rewrite String.eqb_refl in E.
Qed.

(** The state of the dictionary after the counting loop. *)
Lemma security_counts_fold (networks : list Network)
  (counts : list (string * Z)) (seen : list string) :
  let securities := map (fun net => default "Unknown" (net !! "security")) networks in
  let final :=
    fold_left (fun counts net => Gui.bump (default "Unknown" (net !! "security")) counts)
              networks counts in
  NoDup (map fst counts) ->
  Forall (fun entry => (0 < entry.2)%Z) counts ->
  (forall key, Gui.get_count key counts = occ key seen) ->
  NoDup (map fst final) /\
  Forall (fun entry => (0 < entry.2)%Z) final /\
  (forall key, Gui.get_count key final = occ key (seen ++ securities)%list) /\
  fold_right Z.add 0%Z (map snd final)
  = (fold_right Z.add 0%Z (map snd counts) + Z.of_nat (length networks))%Z.
Proof.
  cbv zeta. revert counts seen.
  induction networks as [|net rest IH]; intros counts seen Hnd Hpos Hget; simpl.
  - rewrite app_nil_r. repeat split; auto. lia.
  - set (s := default "Unknown" (net !! "security")).
    destruct (IH (Gui.bump s counts) (seen ++ [s])%list) as (H1 & H2 & H3 & H4).
    + now apply bump_nodup.
    + now apply bump_positive.
    + intros key. rewrite bump_get, Hget, List.filter_app, length_app. simpl.
      rewrite (String.eqb_sym s key). destruct (String.eqb key s); simpl; lia.
    + split; [exact H1|]. split; [exact H2|]. split.
      * intros key. rewrite H3, <- app_assoc. reflexivity.
      * rewrite H4, bump_sum. lia.
Qed.

End ReportFacts.

(** X10: the security breakdown of the fallback WiFi report is a true tally
    of the scan: every security type found is listed once, with the number
    of networks that have it (a missing security counts as "Unknown"), no
    other type is listed, and the counts add up to the number of networks.
    For an empty scan the report is the single sentence "No WiFi networks
    scanned.". *)
Theorem security_counts_tally (networks : list Network) :
  let securities := map (fun net => default "Unknown" (net !! "security")) networks in
  let counts := Gui.security_counts networks in
  NoDup (map fst counts) /\
  (forall (key : string) (count : Z),
     In (key, count) counts <->
     In key securities /\
     count = Z.of_nat (length (List.filter (String.eqb key) securities))) /\
  fold_right Z.add 0%Z (map snd counts) = Z.of_nat (length networks) /\
  (forall now : string, Gui.generate_wifi_report now [] = "No WiFi networks scanned.").
Proof.
  cbv zeta. unfold Gui.security_counts.
  destruct (security_counts_fold networks [] []) as (Hnd & Hpos & Hget & Hsum).
  { constructor. } { constructor. } { reflexivity. }
  cbv zeta in Hnd, Hpos, Hget, Hsum. simpl in Hget, Hsum.
  split; [exact Hnd|]. split; [|split; [exact Hsum | reflexivity]].
  intros key count. split.
  - intros Hin. pose proof (get_count_in _ _ _ Hnd Hin) as Hc.
    rewrite Hget in Hc. split; [|congruence].
    apply occ_positive. rewrite Hc.
    rewrite Forall_forall in Hpos. apply (Hpos (key, count)).
    now apply list_elem_of_In.
  - intros [Hin ->]. rewrite <- Hget. apply get_count_found.
    rewrite Hget. apply occ_positive in Hin. lia.
Qed.

Lemma security_counts_tally_witness :
  In ("WPA2", 2%Z)
     (Gui.security_counts [ {[ "security" := "WPA2" ]}; ∅; {[ "security" := "WPA2" ]} ]) /\
  In ("Unknown", 1%Z)
     (Gui.security_counts [ {[ "security" := "WPA2" ]}; ∅; {[ "security" := "WPA2" ]} ]).
Proof.
  destruct (security_counts_tally
              [ {[ "security" := "WPA2" ]}; ∅; {[ "security" := "WPA2" ]} ])
    as (_ & Hlisted & _).
  split; apply Hlisted; vm_compute; auto.
Defined.

(** X11: the fallback WiFi report lists as vulnerable exactly the scanned
    networks whose security is, letter for letter, one of "WEP", "OPEN",
    "WPA", "WPA2"; each of them is also rated by the scan tab, as CRITICAL
    (WEP, OPEN), HIGH (WPA) or MEDIUM (WPA2), never as UNKNOWN. *)
Theorem vulnerable_networks_are_rated (networks : list Network) (net : Network) :
  In net (Gui.vulnerable networks) <->
  In net networks /\
  ((net !! "security" = Some "WEP" /\ Gui.shown_threat net = CRITICAL) \/
   (net !! "security" = Some "OPEN" /\ Gui.shown_threat net = CRITICAL) \/
   (net !! "security" = Some "WPA" /\ Gui.shown_threat net = HIGH) \/
   (net !! "security" = Some "WPA2" /\ Gui.shown_threat net = MEDIUM)).
Proof.
  unfold Gui.vulnerable. rewrite List.filter_In.
  assert (Hthreat : forall d, net !! "security" = Some d ->
                              Gui.shown_threat net = Gui.threat_level d).
  { intros d Hd. rewrite shown_threat_eq. unfold Gui.security_field. now rewrite Hd. }
  split.
  - intros [Hin Hv]. split; [exact Hin|].
    unfold Gui.is_vulnerable in Hv. destruct (net !! "security") as [d|] eqn:Hd.
    + simpl in Hv. rewrite (Hthreat d eq_refl).
      destruct (String.eqb_spec d "WEP") as [->|]; [left; split; reflexivity|].
      destruct (String.eqb_spec d "OPEN") as [->|]; [right; left; split; reflexivity|].
      destruct (String.eqb_spec d "WPA") as [->|];
        [right; right; left; split; reflexivity|].
      destruct (String.eqb_spec d "WPA2") as [->|];
        [right; right; right; split; reflexivity | discriminate].
    + discriminate.
  - intros [Hin Hsec]. split; [exact Hin|]. unfold Gui.is_vulnerable.
    destruct Hsec as [[-> _] | [[-> _] | [[-> _] | [-> _]]]]; reflexivity.
Qed.

Lemma vulnerable_networks_are_rated_witness :
  In {[ "security" := "WPA2" ]}
     (Gui.vulnerable [ {[ "security" := "WPA2-Personal" ]}; {[ "security" := "WPA2" ]} ]) /\
  ~ In {[ "security" := "WPA2-Personal" ]}
       (Gui.vulnerable [ {[ "security" := "WPA2-Personal" ]}; {[ "security" := "WPA2" ]} ]).
Proof.
  split.
  - apply (vulnerable_networks_are_rated
             [ {[ "security" := "WPA2-Personal" ]}; {[ "security" := "WPA2" ]} ]
             {[ "security" := "WPA2" ]}).
    split; [right; left; reflexivity|]. right. right. right.
    split; vm_compute; reflexivity.
  - intros Hin.
    apply (vulnerable_networks_are_rated
             [ {[ "security" := "WPA2-Personal" ]}; {[ "security" := "WPA2" ]} ]
             {[ "security" := "WPA2-Personal" ]}) in Hin.
    destruct Hin as [_ [[H _] | [[H _] | [[H _] | [H _]]]]];
      vm_compute in H; discriminate H.
Defined.

(** ** Selecting a row of the scan tab *)

Section Selection.

Lemma assess_threat_text (threat : Risk) :
  Gui.assess (Gui.threat_text threat)
  = match threat with
    | CRITICAL => (Gui.AvoidConnection, "alert_red")
    | HIGH => (Gui.ExtremeCaution, "warning_orange")
    | MEDIUM => (Gui.StrongEncryption, "cyber_blue")
    | LOW | UNKNOWN => (Gui.SecureForUse, "matrix_green")
    end.
Proof. destruct threat; vm_compute; reflexivity. Qed.

Lemma recommend_threat_text (threat : Risk) :
  GuiBackup.recommend (GuiBackup.threat_text threat)
  = match threat with
    | CRITICAL => GuiBackup.AvoidConnection
    | HIGH => GuiBackup.UseWithCaution
    | MEDIUM => GuiBackup.UseStrongPassword
    | LOW | UNKNOWN => GuiBackup.SafeForUse
    end.
Proof. destruct threat; vm_compute; reflexivity. Qed.

End Selection.

(** X12: selecting the row at position [k] of the scan tab reports on the
    network at position [k] of the scan, and the advice follows its threat
    level: CRITICAL - avoid connection, HIGH - extreme caution, MEDIUM -
    strong encryption.  The advice "LOW RISK - SECURE FOR USE" is given
    exactly to the networks whose threat level is UNKNOWN; the backup GUI
    likewise tells "SAFE FOR USE" exactly for them. *)
Theorem selected_row_advice (networks : list Network) (tab : Gui.ScanTab)
  (k : nat) (net : Network) :
  networks !! k = Some net ->
  exists (advice : Gui.Advice) (color : string),
    Gui.on_network_select (Gui.network_tree (Gui.display_scan_results networks tab) !! k)
    = Some (advice, color) /\
    (advice = Gui.AvoidConnection <-> Gui.shown_threat net = CRITICAL) /\
    (advice = Gui.ExtremeCaution <-> Gui.shown_threat net = HIGH) /\
    (advice = Gui.StrongEncryption <-> Gui.shown_threat net = MEDIUM) /\
    (advice = Gui.SecureForUse <-> Gui.shown_threat net = UNKNOWN) /\
    (GuiBackup.on_network_select (Some (GuiBackup.shown_threat net))
     = Some GuiBackup.SafeForUse <-> GuiBackup.shown_threat net = UNKNOWN).
Proof.
  intros Hk.
  exists (fst (Gui.assess (Gui.threat_text (Gui.shown_threat net)))),
         (snd (Gui.assess (Gui.threat_text (Gui.shown_threat net)))).
  split.
  - unfold Gui.display_scan_results. cbn [Gui.network_tree].
    rewrite list_lookup_fmap, Hk. unfold Gui.shown_threat.
    change (Gui.on_network_select (Gui.scan_row <$> Some net))
      with (Some (Gui.assess (Gui.threat_text (Gui.tree_threat (Gui.scan_row net))))).
    now destruct (Gui.assess (Gui.threat_text (Gui.tree_threat (Gui.scan_row net)))).
  - unfold GuiBackup.on_network_select.
    rewrite assess_threat_text, recommend_threat_text.
    change (GuiBackup.shown_threat net) with (Gui.shown_threat net).
    rewrite shown_threat_eq.
    destruct (threat_level_cases (Gui.security_field net)) as [H | [H | [H | H]]];
      rewrite H; simpl; repeat split; intros; congruence.
Qed.

Lemma selected_row_advice_witness :
  exists (advice : Gui.Advice) (color : string),
    Gui.on_network_select
      (Gui.network_tree
         (Gui.display_scan_results
            [ {[ "security" := "WEP" ]}; {[ "security" := "Zero-Trust" ]} ]
            {| Gui.scanning := true; Gui.current_networks := [];
               Gui.network_tree := []; Gui.networks_scanned := 0 |}) !! 1%nat)
    = Some (advice, color) /\ advice = Gui.SecureForUse.
Proof.
  destruct (selected_row_advice
              [ {[ "security" := "WEP" ]}; {[ "security" := "Zero-Trust" ]} ]
              {| Gui.scanning := true; Gui.current_networks := [];
                 Gui.network_tree := []; Gui.networks_scanned := 0 |}
              1%nat {[ "security" := "Zero-Trust" ]} eq_refl)
    as (advice & color & Hsel & _ & _ & _ & Hsecure & _).
  exists advice, color. split; [exact Hsel|].
  apply Hsecure. vm_compute. reflexivity.
Defined.

(** ** The system monitor of the backup GUI *)

Section Monitor.

Import Rand.

Local Abbreviation in_range :=
  (fun bar : GuiBackup.UsageBar => (0 <= GuiBackup.usage bar <= 100)%Z).

Lemma update_bar_usage (bar : GuiBackup.UsageBar) (g : Random) :
  GuiBackup.usage (fst (GuiBackup.update_bar bar g))
  = Z.max 0 (Z.min 100 (GuiBackup.usage bar + fst (randint (-10) 10 g))).
Proof.
  unfold GuiBackup.update_bar. now destruct (randint (-10) 10 g).
Qed.

Lemma update_bars_in_range (bars : list GuiBackup.UsageBar) (g : Random) :
  Forall in_range (fst (GuiBackup.update_bars bars g)) /\
  length (fst (GuiBackup.update_bars bars g)) = length bars.
Proof.
  revert g. induction bars as [|bar rest IH]; intros g.
  - split; [constructor | reflexivity].
  - change (GuiBackup.update_bars (bar :: rest) g) with
      (let '(bar', g1) := GuiBackup.update_bar bar g in
       let '(rest', g2) := GuiBackup.update_bars rest g1 in
       (bar' :: rest', g2)).
    pose proof (update_bar_usage bar g) as Hu.
    pose proof (randint_range (-10) 10 g ltac:(lia)) as Hr.
    destruct (GuiBackup.update_bar bar g) as [bar' g1]. cbn [fst] in Hu.
    destruct (IH g1) as [Hall Hlen].
    destruct (GuiBackup.update_bars rest g1) as [rest' g2]. cbn [fst] in Hall, Hlen |- *.
    split; [|cbn [length]; congruence].
    constructor; [rewrite Hu; lia | exact Hall].
Qed.

Lemma monitor_after_step (ticks : nat) (bars : list GuiBackup.UsageBar) (g : Random) :
  GuiBackup.monitor_after (S ticks) bars g
  = GuiBackup.monitor_after ticks (fst (GuiBackup.update_bars bars g))
                            (snd (GuiBackup.update_bars bars g)).
Proof.
  change (GuiBackup.monitor_after (S ticks) bars g) with
    (let '(bars', g') := GuiBackup.update_bars bars g in
     GuiBackup.monitor_after ticks bars' g').
  now destruct (GuiBackup.update_bars bars g).
Qed.

Lemma monitor_after_in_range (ticks : nat) (bars : list GuiBackup.UsageBar) (g : Random) :
  Forall in_range bars ->
  Forall in_range (fst (GuiBackup.monitor_after ticks bars g)) /\
  length (fst (GuiBackup.monitor_after ticks bars g)) = length bars.
Proof.
  revert bars g. induction ticks as [|t IH]; intros bars g Hall.
  - split; [exact Hall | reflexivity].
  - rewrite monitor_after_step.
    destruct (update_bars_in_range bars g) as [Hall' Hlen].
    destruct (IH _ (snd (GuiBackup.update_bars bars g)) Hall') as [H1 H2].
    split; [exact H1 | congruence].
Qed.

End Monitor.

(** X13: the usage bars of the system monitor stay on their scale: after
    any update, and so after any number of updates from any starting
    values, every bar shows a value between 0 and 100; a value that was on
    the scale moves by at most 10 in one update; and a bar is red exactly
    when its value exceeds 80. *)
Theorem monitor_stays_in_range (bars : list GuiBackup.UsageBar) (g : Rand.Random) :
  (forall ticks : nat,
     Forall (fun bar => (0 <= GuiBackup.usage bar <= 100)%Z)
            (fst (GuiBackup.monitor_after (S ticks) bars g)) /\
     length (fst (GuiBackup.monitor_after (S ticks) bars g)) = length bars) /\
  (forall bar : GuiBackup.UsageBar,
     let bar' := fst (GuiBackup.update_bar bar g) in
     (0 <= GuiBackup.usage bar' <= 100)%Z /\
     ((0 <= GuiBackup.usage bar <= 100)%Z ->
      (Z.abs (GuiBackup.usage bar' - GuiBackup.usage bar) <= 10)%Z) /\
     (GuiBackup.bar_color bar' = "alert_red" <-> (80 < GuiBackup.usage bar')%Z)).
Proof.
  split.
  - intros ticks. rewrite monitor_after_step.
    destruct (update_bars_in_range bars g) as [Hall Hlen].
    destruct (monitor_after_in_range ticks _ (snd (GuiBackup.update_bars bars g)) Hall)
      as [H1 H2].
    split; [exact H1 | congruence].
  - intros bar. cbv zeta. pose proof (update_bar_usage bar g) as Hu.
    pose proof (randint_range (-10) 10 g ltac:(lia)) as Hr.
    split; [rewrite Hu; lia|]. split; [intros Hin; rewrite Hu; lia|].
    clear Hu Hr. unfold GuiBackup.update_bar.
    destruct (Rand.randint (-10) 10 g) as [change g']. cbn [fst GuiBackup.usage
      GuiBackup.bar_color].
    set (v := Z.max 0 (Z.min 100 (GuiBackup.usage bar + change))).
    destruct (Z.ltb_spec 80 v) as [Hv|Hv]; [tauto|].
    destruct (60 <? v)%Z; split; (discriminate || lia).
Qed.

Lemma monitor_stays_in_range_witness :
  let bar := {| GuiBackup.usage := 95; GuiBackup.bar_width := 0;
                GuiBackup.bar_color := "matrix_green" |} in
  (Z.abs (GuiBackup.usage (fst (GuiBackup.update_bar bar Rand.descending)) - 95) <= 10)%Z /\
  GuiBackup.bar_color (fst (GuiBackup.update_bar bar Rand.descending)) = "alert_red".
Proof.
  cbv zeta.
  destruct (monitor_stays_in_range [] Rand.descending) as (_ & Hbar).
  destruct (Hbar {| GuiBackup.usage := 95; GuiBackup.bar_width := 0;
                     GuiBackup.bar_color := "matrix_green" |}) as (_ & Hmove & Hred).
  split; [apply Hmove; simpl; lia | apply Hred; vm_compute; reflexivity].
Defined.

(** ** The Analyze button *)

(** X14: the Analyze button treats the empty entry and the placeholder
    text "Enter password here..." as no input and changes nothing.  Any
    other password is analysed: the counter of analysed passwords goes up
    by exactly one, the stored password is left as it is, three random
    draws are consumed, and with the fallback analyzer the entropy shown
    lies between 50 and 237.5 bits. *)
Theorem analyze_button_outcomes (password : string) (tab : Gui.PasswordTab)
  (g : Rand.Random) :
  (password = "" \/ password = "Enter password here..." ->
   Gui.analyze_password password tab g = Gui.Alert "NO PASSWORD INPUT DETECTED") /\
  (password <> "" -> password <> "Enter password here..." ->
   exists tab' message g',
     Gui.analyze_password password tab g = Gui.Shown tab' message g' /\
     Gui.passwords_analyzed tab' = (Gui.passwords_analyzed tab + 1)%Z /\
     Gui.current_password tab' = Gui.current_password tab /\
     Rand.consumed g' = (Rand.consumed g + 3)%nat /\
     (50 <= Gui.metric_entropy tab' <= 475 # 2)%Q).
Proof.
  unfold Gui.analyze_password. split.
  - intros [-> | ->]; reflexivity.
  - intros Hne Hph.
    destruct (String.eqb_spec password "") as [|_]; [contradiction|].
    destruct (String.eqb_spec password "Enter password here...") as [|_];
      [contradiction|]. cbn [orb].
    pose proof (analyze_score_range password g) as Hs.
    assert (Hg : Rand.consumed (snd (Gui.analyze password g))
                 = (Rand.consumed g + 3)%nat) by (simpl; lia).
    destruct (Gui.analyze password g) as [result g']. cbn [fst snd] in Hs, Hg.
    unfold Gui.display_analysis_result.
    eexists _, _, g'. split; [reflexivity|].
    cbn [Gui.passwords_analyzed Gui.current_password Gui.metric_entropy].
    rewrite entropy_after_update.
    unfold Gui.update_strength_display.
    destruct (Gui.strength_band (Gui.score result)).
    cbn [Gui.passwords_analyzed Gui.current_password].
    split; [reflexivity|]. split; [reflexivity|]. split; [exact Hg|].
    split.
    + apply Qle_trans with (inject_Z 20 * (5 # 2))%Q;
        [vm_compute; discriminate | apply scaled_score_le; lia].
    + apply Qle_trans with (inject_Z 95 * (5 # 2))%Q;
        [apply scaled_score_le; lia | vm_compute; discriminate].
Qed.

Lemma analyze_button_outcomes_witness :
  Gui.analyze_password "Enter password here..." Gui.fresh_tab Rand.counting
  = Gui.Alert "NO PASSWORD INPUT DETECTED" /\
  exists tab' message g',
    Gui.analyze_password "hunter2" Gui.fresh_tab Rand.counting = Gui.Shown tab' message g' /\
    Gui.passwords_analyzed tab' = 1%Z.
Proof.
  destruct (analyze_button_outcomes "Enter password here..." Gui.fresh_tab Rand.counting)
    as (Hempty & _).
  destruct (analyze_button_outcomes "hunter2" Gui.fresh_tab Rand.counting)
    as (_ & Hshown).
  destruct Hshown as (tab' & message & g' & Hrun & Hcount & _);
    [discriminate | discriminate |].
  split; [apply Hempty; right; reflexivity|].
  exists tab', message, g'. split; [exact Hrun | exact Hcount].
Defined.

(** ** The repair script *)

Section Scanner.

Lemma is_char_eq (n : nat) (c : ascii) :
  FixStats.is_char n c = true -> c = ascii_of_nat n.
Proof.
  unfold FixStats.is_char. intros H. apply Nat.eqb_eq in H.
  now rewrite <- H, ascii_nat_embedding.
Qed.

Lemma str_in_head (c : ascii) (rest : string) :
  str_in (String c EmptyString) (String c rest) = true.
Proof.
  rewrite str_in_unfold. simpl.
  destruct (Ascii.ascii_dec c c); [now destruct rest | congruence].
Qed.

Lemma str_in_tail (sub : string) (c : ascii) (rest : string) :
  str_in sub (String c rest) = false -> str_in sub rest = false.
Proof.
  rewrite (str_in_unfold sub (String c rest)).
  now destruct (String.prefix sub (String c rest)).
Qed.

Lemma get_some_length (i : nat) (s : string) (c : ascii) :
  String.get i s = Some c -> (i < String.length s)%nat.
Proof.
  intros H. destruct (Nat.lt_ge_cases i (String.length s)) as [|Hge]; [assumption|].
  exfalso. revert s H Hge. induction i as [|i IH]; intros [|c' s] H Hge;
    simpl in H, Hge; try discriminate H; try lia.
  apply (IH s H). lia.
Qed.

(** With no opening brace ahead and a count that is not positive, the scan
    runs to the end of the text. *)
Lemma scan_without_opening (rest : string) (i : nat) (st : FixStats.Scan) :
  (FixStats.brace_count st <= 0)%Z ->
  str_in "{" rest = false ->
  FixStats.find_insert_pos i rest st = None.
Proof.
  revert i st. induction rest as [|char rest IH]; intros i st Hcount Hno;
    [reflexivity|].
  pose proof (str_in_tail _ _ _ Hno) as Hrest. simpl.
  destruct (FixStats.escape_next st); [now apply IH|].
  destruct (FixStats.is_char 92 char); [now apply IH|].
  destruct (FixStats.is_char 34 char || FixStats.is_char 39 char); [now apply IH|].
  destruct (FixStats.in_string st); simpl; [now apply IH|].
  destruct (FixStats.is_char 123 char) eqn:Eopen.
  - apply is_char_eq in Eopen. subst char.
    change (ascii_of_nat 123) with "{"%char in Hno.
    now rewrite (str_in_head "{"%char rest) in Hno.
  - destruct (FixStats.is_char 125 char); [|now apply IH].
    destruct (Z.eqb_spec (FixStats.brace_count st - 1) 0) as [Hz|_]; [lia|].
    apply IH; [simpl; lia | exact Hrest].
Qed.

(** Where the scan stops, there is a closing brace just before. *)
Lemma scan_stops_after_closing (rest : string) (i : nat) (st : FixStats.Scan) (p : nat) :
  FixStats.find_insert_pos i rest st = Some p ->
  (i < p)%nat /\ String.get (p - 1 - i) rest = Some "}"%char.
Proof.
  revert i st. induction rest as [|char rest IH]; intros i st H; [discriminate H|].
  assert (Hnext : forall st', FixStats.find_insert_pos (S i) rest st' = Some p ->
                              (i < p)%nat /\
                              String.get (p - 1 - i) (String char rest) = Some "}"%char).
  { intros st' H'. destruct (IH _ _ H') as [Hlt Hget]. split; [lia|].
    replace (p - 1 - i)%nat with (S (p - 1 - S i)) by lia. exact Hget. }
  simpl in H.
  destruct (FixStats.escape_next st); [now apply Hnext in H|].
  destruct (FixStats.is_char 92 char); [now apply Hnext in H|].
  destruct (FixStats.is_char 34 char || FixStats.is_char 39 char);
    [now apply Hnext in H|].
  destruct (FixStats.in_string st); simpl in H; [now apply Hnext in H|].
  destruct (FixStats.is_char 123 char); [now apply Hnext in H|].
  destruct (FixStats.is_char 125 char) eqn:Eclose; [|now apply Hnext in H].
  destruct (FixStats.brace_count st - 1 =? 0)%Z; [|now apply Hnext in H].
  inversion H. subst p. split; [lia|].
  replace (i + 1 - 1 - i)%nat with 0%nat by lia. simpl.
  now rewrite (is_char_eq _ _ Eclose).
Qed.

End Scanner.

(** X15: the repair script cannot stop at the brace that closes a flat
    dictionary: when no opening brace follows "self.colors = {" in the file,
    the scan finds no place to insert and the file is left as it is.  (The
    count starts at zero after the opening brace of the dictionary, so its
    closing brace takes it to -1, not to 0.) *)
Theorem fix_stats_flat_dictionary_untouched (content : string) (p : nat) :
  find FixStats.colors_section content = Some p ->
  str_in "{" (slice_from (p + String.length FixStats.colors_section) content) = false ->
  FixStats.fix_stats content = None.
Proof.
  intros Hfind Hno. unfold FixStats.fix_stats.
  destruct (FixStats.init_content content) as [init|]; [|reflexivity].
  destruct (str_in "self.stats =" init); [reflexivity|].
  rewrite Hfind.
  now rewrite (scan_without_opening _ _ FixStats.start ltac:(simpl; lia) Hno).
Qed.

Lemma fix_stats_flat_dictionary_untouched_witness :
  FixStats.fix_stats
    "def __init__(self): self.colors = {'green': '#00FF00'} self.root = tk.Tk()"
  = None.
Proof.
  apply (fix_stats_flat_dictionary_untouched _ 20); vm_compute; reflexivity.
Defined.

(** X16: when the repair script does rewrite the file, it only inserts: the
    new content is the old content with the statistics block put in right
    after a closing brace, everything before and after that place is kept,
    and the file grows by exactly the length of the block. *)
Theorem fix_stats_only_inserts (content new : string) :
  FixStats.fix_stats content = Some new ->
  exists pos : nat,
    (0 < pos <= String.length content)%nat /\
    String.get (pos - 1) content = Some "}"%char /\
    new = slice_to pos content +:+ FixStats.stats_text +:+ slice_from pos content /\
    slice_to pos content +:+ slice_from pos content = content /\
    String.length new
    = (String.length content + String.length FixStats.stats_text)%nat.
Proof.
  unfold FixStats.fix_stats.
  destruct (FixStats.init_content content) as [init|]; [|discriminate].
  destruct (str_in "self.stats =" init); [discriminate|].
  destruct (find FixStats.colors_section content) as [p|]; [|discriminate].
  set (colors_end := (p + String.length FixStats.colors_section)%nat).
  destruct (FixStats.find_insert_pos colors_end (slice_from colors_end content)
              FixStats.start) as [pos|] eqn:Hscan; [|discriminate].
  intros Hnew. inversion Hnew as [Heq]. clear Hnew.
  destruct (scan_stops_after_closing _ _ _ _ Hscan) as [Hlt Hget].
  rewrite get_slice_from in Hget.
  replace (colors_end + (pos - 1 - colors_end))%nat with (pos - 1)%nat in Hget by lia.
  pose proof (get_some_length _ _ _ Hget) as Hlen.
  exists pos. split; [lia|]. split; [exact Hget|]. split; [reflexivity|].
  split; [apply slice_to_from|].
  rewrite !str_length_app.
  pose proof (f_equal String.length (slice_to_from pos content)) as Hsum.
  rewrite str_length_app in Hsum. lia.
Qed.

Lemma fix_stats_only_inserts_witness :
  exists new pos,
    FixStats.fix_stats
      "def __init__(self): self.colors = {'a': {'b': 1}, 'c': 2} self.root = tk.Tk()"
    = Some new /\
    String.get (pos - 1)
      "def __init__(self): self.colors = {'a': {'b': 1}, 'c': 2} self.root = tk.Tk()"
    = Some "}"%char.
Proof.
  assert (Hrun : exists new,
             FixStats.fix_stats
               "def __init__(self): self.colors = {'a': {'b': 1}, 'c': 2} self.root = tk.Tk()"
             = Some new) by (eexists; vm_compute; reflexivity).
  destruct Hrun as (new & Hrun).
  destruct (fix_stats_only_inserts _ _ Hrun) as (pos & _ & Hbrace & _).
  exists new, pos. split; [exact Hrun | exact Hbrace].
Defined.

(** ** The digital rain *)

Section Rain.

Import Rand.

Local Abbreviation drawn_well :=
  (fun item : Gui.RainItem =>
     (0 <= Gui.item_y item)%Z /\
     (Gui.item_char item = "0"%char \/ Gui.item_char item = "1"%char) /\
     In (Gui.item_color item) Gui.rain_colors).

Lemma rain_color_known (j : Z) :
  (0 <= j)%Z ->
  In (default EmptyString
        (Gui.rain_colors !! Z.to_nat (Z.min j (Z.of_nat (length Gui.rain_colors) - 1))))
     Gui.rain_colors.
Proof.
  intros Hj. change (Z.of_nat (length Gui.rain_colors) - 1)%Z with 3%Z.
  assert (Hn : (Z.to_nat (Z.min j 3) = 0 \/ Z.to_nat (Z.min j 3) = 1 \/
                Z.to_nat (Z.min j 3) = 2 \/ Z.to_nat (Z.min j 3) = 3)%nat) by lia.
  destruct Hn as [-> | [-> | [-> | ->]]]; simpl; auto.
Qed.

Lemma draw_drop_step (k : nat) (j i y : Z) (g : Random) :
  Gui.draw_drop (S k) j i y g
  = (match fst (choice "01" g) with
     | Some char =>
         if (0 <=? y - j * Gui.font_size)%Z
         then {| Gui.item_x := (i * Gui.font_size)%Z;
                 Gui.item_y := (y - j * Gui.font_size)%Z;
                 Gui.item_char := char;
                 Gui.item_color :=
                   default EmptyString
                     (Gui.rain_colors
                        !! Z.to_nat (Z.min j (Z.of_nat (length Gui.rain_colors) - 1))) |}
              :: fst (Gui.draw_drop k (j + 1)%Z i y (snd (choice "01" g)))
         else fst (Gui.draw_drop k (j + 1)%Z i y (snd (choice "01" g)))
     | None => fst (Gui.draw_drop k (j + 1)%Z i y (snd (choice "01" g)))
     end,
     snd (Gui.draw_drop k (j + 1)%Z i y (snd (choice "01" g)))).
Proof.
  change (Gui.draw_drop (S k) j i y g) with
    (let '(c, g1) := choice "01" g in
     let char_y := (y - j * Gui.font_size)%Z in
     let '(items, g2) := Gui.draw_drop k (j + 1)%Z i y g1 in
     (match c with
      | Some char =>
          if (0 <=? char_y)%Z
          then {| Gui.item_x := (i * Gui.font_size)%Z; Gui.item_y := char_y;
                  Gui.item_char := char;
                  Gui.item_color :=
                    default EmptyString
                      (Gui.rain_colors
                         !! Z.to_nat (Z.min j (Z.of_nat (length Gui.rain_colors) - 1))) |}
               :: items
          else items
      | None => items
      end, g2)).
  destruct (choice "01" g) as [c g1]. cbv zeta. cbn [fst snd].
  now destruct (Gui.draw_drop k (j + 1)%Z i y g1).
Qed.

Lemma draw_drop_items (count : nat) (j i y : Z) (g : Random) :
  (0 <= j)%Z ->
  Forall drawn_well (fst (Gui.draw_drop count j i y g)) /\
  (length (fst (Gui.draw_drop count j i y g)) <= count)%nat.
Proof.
  revert j g. induction count as [|k IH]; intros j g Hj.
  - split; [constructor | reflexivity].
  - rewrite draw_drop_step. cbn [fst].
    destruct (choice_nonempty "01" g ltac:(discriminate)) as (c & Hc & Hin & _).
    rewrite Hc.
    destruct (IH (j + 1)%Z (snd (choice "01" g)) ltac:(lia)) as [Hall Hlen].
    destruct (Z.leb_spec 0 (y - j * Gui.font_size)) as [Hy|Hy].
    + split; [|cbn [length]; lia].
      constructor; [|exact Hall]. cbn [Gui.item_y Gui.item_char Gui.item_color].
      split; [exact Hy|]. split; [|now apply rain_color_known].
      simpl in Hin. intuition.
    + split; [exact Hall | lia].
Qed.

Lemma animate_column_spec (i drop : Z) (g : Random) :
  let next := fst (fst (Gui.animate_column i drop g)) in
  let items := snd (fst (Gui.animate_column i drop g)) in
  (next <= 101)%Z /\ ((0 <= drop)%Z -> (1 <= next)%Z) /\
  Forall drawn_well items /\ (length items <= 10)%nat.
Proof.
  cbv zeta. unfold Gui.animate_column.
  set (reset := if (100 <? drop)%Z then (0%Z, g)
                else let '(r, g') := Rand.random g in
                     if negb (Qle_bool r (975 # 1000)) then (0%Z, g') else (drop, g')).
  assert (Hreset : (fst reset <= 100)%Z /\ ((0 <= drop)%Z -> (0 <= fst reset)%Z)).
  { subst reset. destruct (Z.ltb_spec 100 drop); [simpl; lia|].
    destruct (Rand.random g) as [r g'].
    destruct (negb (Qle_bool r (975 # 1000))); simpl; lia. }
  destruct reset as [drop1 g1]. cbn [fst] in Hreset.
  change (Z.to_nat (Z.min 10 (Z.of_nat (String.length Gui.rain_chars)))) with 10%nat.
  pose proof (draw_drop_items 10 0 i (drop1 * Gui.font_size) g1 ltac:(lia))
    as [Hall Hlen].
  destruct (Gui.draw_drop 10 0 i (drop1 * Gui.font_size) g1) as [items g2].
  cbn [fst snd] in Hall, Hlen |- *.
  split; [lia|]. split; [lia|]. split; [exact Hall | exact Hlen].
Qed.

Lemma animate_columns_spec (drops : list Z) (i : Z) (g : Random) :
  let next := fst (fst (Gui.animate_columns i drops g)) in
  let items := snd (fst (Gui.animate_columns i drops g)) in
  length next = length drops /\
  Forall (fun d => (d <= 101)%Z) next /\
  (Forall (fun d => (0 <= d)%Z) drops -> Forall (fun d => (1 <= d <= 101)%Z) next) /\
  Forall drawn_well items /\ (length items <= 10 * length drops)%nat.
Proof.
  cbv zeta. revert i g. induction drops as [|drop rest IH]; intros i g.
  - simpl. repeat split; try constructor.
  - change (Gui.animate_columns i (drop :: rest) g) with
      (let '(drop', items, g1) := Gui.animate_column i drop g in
       let '(rest', items', g2) := Gui.animate_columns (i + 1)%Z rest g1 in
       (drop' :: rest', (items ++ items')%list, g2)).
    pose proof (animate_column_spec i drop g) as Hcol. cbv zeta in Hcol.
    destruct (Gui.animate_column i drop g) as [[drop' items] g1].
    cbn [fst snd] in Hcol. destruct Hcol as (Hmax & Hmin & Hitems & Hcount).
    specialize (IH (i + 1)%Z g1).
    destruct (Gui.animate_columns (i + 1)%Z rest g1) as [[rest' items'] g2].
    cbn [fst snd] in IH |- *. destruct IH as (Hlen & Hle & Hpos & Hall & Hn).
    split; [cbn [length]; congruence|]. split; [now constructor|]. split.
    + intros Hdrops. apply Forall_cons in Hdrops as [Hd Hrest].
      constructor; [split; [now apply Hmin | exact Hmax] | now apply Hpos].
    + split; [now apply Forall_app|]. rewrite length_app. cbn [length]. lia.
Qed.

End Rain.

(** X17: one frame of the digital rain keeps every column counter at 101 or
    below, and at 1 or above when it was not negative, so the counters
    started at 0 stay between 1 and 101 for ever; it keeps the number of
    columns, draws at most ten characters per column, each a "0" or a "1"
    in one of the four greens, and none above the top edge.  A stopped rain
    draws nothing and keeps its counters. *)
Theorem rain_frame_bounded (drops : list Z) (g : Rand.Random) :
  let next := fst (fst (Gui.animate true drops g)) in
  let items := snd (fst (Gui.animate true drops g)) in
  length next = length drops /\
  Forall (fun d => (d <= 101)%Z) next /\
  (Forall (fun d => (0 <= d)%Z) drops -> Forall (fun d => (1 <= d <= 101)%Z) next) /\
  Forall (fun item =>
            (0 <= Gui.item_y item)%Z /\
            (Gui.item_char item = "0"%char \/ Gui.item_char item = "1"%char) /\
            In (Gui.item_color item) Gui.rain_colors) items /\
  (length items <= 10 * length drops)%nat /\
  Gui.animate false drops g = (drops, [], g).
Proof.
  cbv zeta. unfold Gui.animate.
  destruct (animate_columns_spec drops 0 g) as (H1 & H2 & H3 & H4 & H5).
  repeat split; assumption.
Qed.

Lemma rain_frame_bounded_witness :
  Forall (fun d => (1 <= d <= 101)%Z)
         (fst (fst (Gui.animate true [0; 100; 101]%Z Rand.counting))) /\
  fst (fst (Gui.animate true [0; 100; 101]%Z Rand.counting)) = [1; 101; 1]%Z.
Proof.
  destruct (rain_frame_bounded [0; 100; 101]%Z Rand.counting)
    as (_ & _ & Hpos & _).
  split; [apply Hpos; repeat constructor; lia | vm_compute; reflexivity].
Defined.

(** ** How the three classifiers relate *)

(** X18: the CLI's detailed analysis agrees with the tier of its audit
    report: a network is rated CRITICAL exactly when the analysis calls its
    encryption WEP; a network rated HIGH is analysed as an open network; a
    network analysed as original WPA is rated MEDIUM; and a network found to
    have good encryption, or given no assessment, is rated LOW.  The listing
    shows the audit's tier whenever the security field has at most 14
    characters. *)
Theorem audit_agrees_with_analysis (net : Network) :
  (Cli.audit_risk net = CRITICAL <-> Cli.analyze_network net = Cli.WepCrackable) /\
  (Cli.audit_risk net = HIGH -> Cli.analyze_network net = Cli.OpenNoEncryption) /\
  (Cli.analyze_network net = Cli.OriginalWpa -> Cli.audit_risk net = MEDIUM) /\
  (Cli.analyze_network net = Cli.GoodEncryption \/
   Cli.analyze_network net = Cli.NoAssessment -> Cli.audit_risk net = LOW) /\
  ((String.length (Cli.security_field net) <= 14)%nat ->
   Cli.listed_risk net = Cli.audit_risk net).
Proof.
  unfold Cli.audit_risk, Cli.analyze_network, Cli.risk_of.
  set (d := Cli.security_field net).
  split; [|split; [|split; [|split]]].
  - destruct (str_in "WEP" d); [split; reflexivity|].
    destruct (str_in "OPEN" d); simpl; [split; discriminate|].
    destruct (str_in "NONE" d); simpl;
      destruct (str_in "WPA" d && negb (str_in "WPA2" d));
      try destruct (str_in "WPA2" d || str_in "WPA3" d); split; discriminate.
  - destruct (str_in "WEP" d); [discriminate|].
    destruct (str_in "OPEN" d); simpl; [reflexivity|].
    destruct (str_in "WPA" d && negb (str_in "WPA2" d)); discriminate.
  - destruct (str_in "WEP" d); [discriminate|].
    destruct (str_in "OPEN" d); simpl; [discriminate|].
    destruct (str_in "NONE" d); simpl; [discriminate|].
    destruct (str_in "WPA" d && negb (str_in "WPA2" d)); [reflexivity|].
    destruct (str_in "WPA2" d || str_in "WPA3" d); discriminate.
  - destruct (str_in "WEP" d); [intros [|]; discriminate|].
    destruct (str_in "OPEN" d); simpl; [intros [|]; discriminate|].
    destruct (str_in "NONE" d); simpl; [intros [|]; discriminate|].
    destruct (str_in "WPA" d && negb (str_in "WPA2" d));
      [intros [|]; discriminate | reflexivity].
  - intros Hlen. rewrite listed_risk_eq. fold d. now rewrite slice_to_all.
Qed.

Lemma audit_agrees_with_analysis_witness :
  Cli.analyze_network {[ "security" := "WEP" ]} = Cli.WepCrackable /\
  Cli.analyze_network {[ "security" := "OPEN" ]} = Cli.OpenNoEncryption /\
  Cli.audit_risk {[ "security" := "WPA-Personal" ]} = MEDIUM /\
  Cli.audit_risk {[ "security" := "WPA2-Personal" ]} = LOW /\
  Cli.listed_risk {[ "security" := "WPA-Personal" ]}
  = Cli.audit_risk {[ "security" := "WPA-Personal" ]}.
Proof.
  destruct (audit_agrees_with_analysis {[ "security" := "WEP" ]}) as (Hwep & _).
  destruct (audit_agrees_with_analysis {[ "security" := "OPEN" ]}) as (_ & Hopen & _).
  destruct (audit_agrees_with_analysis {[ "security" := "WPA-Personal" ]})
    as (_ & _ & Hwpa & _ & Hcut).
  destruct (audit_agrees_with_analysis {[ "security" := "WPA2-Personal" ]})
    as (_ & _ & _ & Hgood & _).
  split; [apply Hwep; vm_compute; reflexivity|].
  split; [apply Hopen; vm_compute; reflexivity|].
  split; [apply Hwpa; vm_compute; reflexivity|].
  split; [apply Hgood; left; vm_compute; reflexivity|].
  apply Hcut. vm_compute. lia.
Defined.

(** X19: on a security value written in upper case and of at most 14
    characters the two front ends rate one step apart: what the CLI lists as
    CRITICAL or HIGH the GUI shows as CRITICAL, what the CLI lists as MEDIUM
    the GUI shows as HIGH, and what the CLI lists as LOW the GUI shows as
    MEDIUM or UNKNOWN. *)
Theorem front_ends_one_step_apart (net : Network) (d : string) :
  net !! "security" = Some d ->
  upper d = d ->
  (String.length d <= 14)%nat ->
  (Cli.listed_risk net = CRITICAL \/ Cli.listed_risk net = HIGH
   <-> Gui.shown_threat net = CRITICAL) /\
  (Cli.listed_risk net = MEDIUM <-> Gui.shown_threat net = HIGH) /\
  (Cli.listed_risk net = LOW
   <-> Gui.shown_threat net = MEDIUM \/ Gui.shown_threat net = UNKNOWN).
Proof.
  intros Hd Hup Hlen.
  rewrite listed_risk_eq, shown_threat_eq.
  unfold Cli.security_field, Gui.security_field. rewrite Hd. simpl default.
  rewrite (slice_to_all _ _ Hlen).
  unfold Cli.risk_of, Gui.threat_level. rewrite Hup.
  destruct (str_in "WEP" d); simpl; [intuition congruence|].
  destruct (str_in "OPEN" d); simpl; [intuition congruence|].
  destruct (str_in "WPA2" d) eqn:E2.
  - rewrite (str_in_wpa2_wpa _ E2). simpl. intuition congruence.
  - destruct (str_in "WPA" d) eqn:E; simpl; [intuition congruence|].
    destruct (str_in "WPA3" d) eqn:E3; [|intuition congruence].
    apply str_in_wpa3_wpa in E3. congruence.
Qed.

Lemma front_ends_one_step_apart_witness :
  Cli.listed_risk {[ "security" := "WPA2-PERSONAL" ]} = LOW /\
  (Gui.shown_threat {[ "security" := "WPA2-PERSONAL" ]} = MEDIUM \/
   Gui.shown_threat {[ "security" := "WPA2-PERSONAL" ]} = UNKNOWN).
Proof.
  assert (Hfield : ({[ "security" := "WPA2-PERSONAL" ]} : Network) !! "security"
                   = Some "WPA2-PERSONAL") by (vm_compute; reflexivity).
  assert (Hlen : (String.length "WPA2-PERSONAL" <= 14)%nat) by (vm_compute; lia).
  destruct (front_ends_one_step_apart _ _ Hfield eq_refl Hlen) as (_ & _ & Hlow).
  assert (Hcli : Cli.listed_risk {[ "security" := "WPA2-PERSONAL" ]} = LOW)
    by (vm_compute; reflexivity).
  split; [exact Hcli | apply Hlow; exact Hcli].
Defined.

(** ** The footer clock *)

Section Clock.

Lemma rsplit_head_none (text : string) :
  str_in "|" text = false -> Gui.rsplit_head text = None.
Proof.
  induction text as [|c rest IH]; intros H; [reflexivity|].
  pose proof (str_in_tail _ _ _ H) as Hrest. simpl. rewrite (IH Hrest).
  destruct (Gui.is_bar c) eqn:Ebar; [|reflexivity].
  unfold Gui.is_bar in Ebar. apply Nat.eqb_eq in Ebar.
  assert (c = "|"%char) by (rewrite <- (ascii_nat_embedding c), Ebar; reflexivity).
  subst c. now rewrite (str_in_head "|"%char rest) in H.
Qed.

Lemma rsplit_head_last (head tail : string) :
  Gui.rsplit_head tail = None ->
  Gui.rsplit_head (head +:+ String "|"%char tail) = Some head.
Proof.
  intros Htail. induction head as [|c head IH].
  - change (EmptyString +:+ String "|"%char tail) with (String "|"%char tail).
    simpl. now rewrite Htail.
  - rewrite app_cons. simpl. now rewrite IH.
Qed.

Lemma banner_is_ready (time_str : string) :
  str_in "READY |" (">_ GRAE-X SENTINEL PRO v4.2.1 | READY | " +:+ time_str) = true.
Proof. vm_compute. reflexivity. Qed.

End Clock.

(** X20: the footer clock replaces the time it showed before instead of
    piling times up: two ticks in a row leave the footer as the second tick
    alone would, provided the first time holds no bar and the first tick does
    not turn a footer without "READY |" into one with it.  After any tick
    the footer ends with a bar, a space and the time. *)
Theorem clock_tick_replaces_time (t1 t2 text : string) :
  (exists head, Gui.update_clock t2 text = head +:+ "| " +:+ t2) /\
  (str_in "|" t1 = false ->
   (str_in "READY |" text = false ->
    str_in "READY |" (Gui.update_clock t1 text) = false) ->
   Gui.update_clock t2 (Gui.update_clock t1 text) = Gui.update_clock t2 text).
Proof.
  split.
  - unfold Gui.update_clock. destruct (str_in "READY |" text).
    + now exists ">_ GRAE-X SENTINEL PRO v4.2.1 | READY ".
    + now exists (default text (Gui.rsplit_head text)).
  - intros Hbar Hkeep. unfold Gui.update_clock at 2 3.
    destruct (str_in "READY |" text) eqn:Eready.
    + unfold Gui.update_clock. now rewrite banner_is_ready.
    + specialize (Hkeep eq_refl). unfold Gui.update_clock in Hkeep |- *.
      rewrite Eready in Hkeep. rewrite Hkeep.
      set (head := default text (Gui.rsplit_head text)).
      change (head +:+ "| " +:+ t1)
        with (head +:+ String "|"%char (String " "%char t1)).
      rewrite rsplit_head_last; [reflexivity|].
      apply rsplit_head_none. rewrite str_in_unfold. simpl. exact Hbar.
Qed.

Lemma clock_tick_replaces_time_witness :
  Gui.update_clock "10:00:01"
    (Gui.update_clock "10:00:00" ">_ NETWORK SWEEP COMPLETE")
  = ">_ NETWORK SWEEP COMPLETE| 10:00:01".
Proof.
  destruct (clock_tick_replaces_time "10:00:00" "10:00:01" ">_ NETWORK SWEEP COMPLETE")
    as (_ & Htwice).
  rewrite Htwice; [reflexivity | reflexivity | intros _; reflexivity].
Defined.

(** ** WPA3 in the CLI *)

(** X21: in the CLI a WPA3 network is only recognised through "WPA2": the
    detailed analysis reports good encryption exactly when the security
    field contains "WPA2" and none of "WEP", "OPEN", "NONE"; a field that
    contains "WPA3" without "WPA2" (and none of the three) is reported as
    original WPA and rated MEDIUM by the audit. *)
Theorem cli_good_encryption_needs_wpa2 (net : Network) :
  let d := Cli.security_field net in
  (Cli.analyze_network net = Cli.GoodEncryption <->
   str_in "WPA2" d = true /\ str_in "WEP" d = false /\
   str_in "OPEN" d = false /\ str_in "NONE" d = false) /\
  (str_in "WPA3" d = true -> str_in "WPA2" d = false ->
   str_in "WEP" d = false -> str_in "OPEN" d = false -> str_in "NONE" d = false ->
   Cli.analyze_network net = Cli.OriginalWpa /\ Cli.audit_risk net = MEDIUM).
Proof.
  cbv zeta. unfold Cli.analyze_network, Cli.audit_risk, Cli.risk_of.
  set (d := Cli.security_field net). split.
  - destruct (str_in "WEP" d); [split; [discriminate | intros (_ & H & _); discriminate]|].
    destruct (str_in "OPEN" d); simpl;
      [split; [discriminate | intros (_ & _ & H & _); discriminate]|].
    destruct (str_in "NONE" d); simpl;
      [split; [discriminate | intros (_ & _ & _ & H); discriminate]|].
    destruct (str_in "WPA2" d) eqn:E2.
    + rewrite (str_in_wpa2_wpa _ E2). simpl. split; auto.
    + destruct (str_in "WPA" d) eqn:E; simpl.
      * split; [discriminate | intros (H & _); discriminate].
      * destruct (str_in "WPA3" d) eqn:E3.
        -- apply str_in_wpa3_wpa in E3. congruence.
        -- split; [discriminate | intros (H & _); discriminate].
  - intros H3 H2 Hwep Hopen Hnone.
    rewrite Hwep, Hopen, Hnone, (str_in_wpa3_wpa _ H3), H2. split; reflexivity.
Qed.

Lemma cli_good_encryption_needs_wpa2_witness :
  Cli.analyze_network {[ "security" := "WPA3-Personal" ]} = Cli.OriginalWpa /\
  Cli.audit_risk {[ "security" := "WPA3-Personal" ]} = MEDIUM /\
  Cli.analyze_network {[ "security" := "WPA2/WPA3" ]} = Cli.GoodEncryption.
Proof.
  destruct (cli_good_encryption_needs_wpa2 {[ "security" := "WPA3-Personal" ]})
    as (_ & Hwpa3).
  destruct (cli_good_encryption_needs_wpa2 {[ "security" := "WPA2/WPA3" ]})
    as (Hgood & _).
  destruct Hwpa3 as (Hanalysis & Haudit); try (vm_compute; reflexivity).
  split; [exact Hanalysis|]. split; [exact Haudit|].
  apply Hgood. vm_compute. repeat split; reflexivity.
Defined.
